(** * The dubbo-js socket worker (packages/dubbo/src/consumer/socket-worker.ts)

    A shallow embedding of [SocketWorker]: the object that owns one TCP
    connection to one dubbo endpoint, reconnects with a bounded number of
    retries, and dispatches assembled frames either to the heartbeat
    monitor or to its subscriber.

    The worker's methods are written in a small state-and-exception monad
    over a [State] holding the worker object ([this]), the module-level
    variables ([pid], [statistics], the debug log) and the heaps of the
    objects the worker allocates (sockets, timers).  Event delivery by the
    runtime (socket events, timers, calls of the public methods) is a list
    of [Event]s run one after the other: the host is single threaded. *)

From Stdlib Require Import ZArith QArith String Ascii List Lia.
From Stdlib Require Qcanon.
From stdpp Require Import base gmap list strings pretty.

Local Open Scope string_scope.
Local Open Scope list_scope.
Local Open Scope Z_scope.

(** ** JavaScript primitives used by [SocketWorker.from] *)

Module JS.

(** The [number] type: the binary64 values.  A finite value other than
    [-0] is kept as the rational it is. *)
Inductive number : Type :=
| NaN
| Infinity (negative : bool)
| Fin (q : Q)
| NegativeZero.

Definition of_Z (z : Z) : number := Fin (inject_Z z).

(** [s.split(sep)] for a one-character separator. *)
Fixpoint split (sep : ascii) (s : string) : list string :=
  match s with
  | EmptyString => [ EmptyString ]
  | String c s' =>
      let r := split sep s' in
      if Ascii.eqb c sep then EmptyString :: r
      else match r with
           | h :: t => String c h :: t
           | [] => [ String c EmptyString ]
           end
  end.

(** Text is UTF-8.  StrWhiteSpaceChar, each as its bytes: TAB, LF, VT,
    FF, CR, SP, U+00A0, U+1680, U+2000 to U+200A, U+2028, U+2029, U+202F,
    U+205F, U+3000 and U+FEFF. *)
Definition white_space : list (list Z) :=
  [ [9]; [10]; [11]; [12]; [13]; [32];
    [194; 160];
    [225; 154; 128];
    [226; 128; 128]; [226; 128; 129]; [226; 128; 130]; [226; 128; 131];
    [226; 128; 132]; [226; 128; 133]; [226; 128; 134]; [226; 128; 135];
    [226; 128; 136]; [226; 128; 137]; [226; 128; 138];
    [226; 128; 168]; [226; 128; 169]; [226; 128; 175];
    [226; 129; 159];
    [227; 128; 128];
    [239; 187; 191] ].

Definition code (c : ascii) : Z := Z.of_N (N_of_ascii c).

(** The text after the prefix [pre], when it starts with it. *)
Fixpoint after_prefix (pre : list Z) (cs : list ascii) : option (list ascii) :=
  match pre, cs with
  | [], _ => Some cs
  | b :: pre', c :: cs' => if code c =? b then after_prefix pre' cs' else None
  | _ :: _, [] => None
  end.

(** The text after one white-space character of [ws], when it starts
    with one. *)
Fixpoint after_white_space (ws : list (list Z)) (cs : list ascii)
  : option (list ascii) :=
  match ws with
  | [] => None
  | w :: ws' =>
      match after_prefix w cs with
      | Some r => Some r
      | None => after_white_space ws' cs
      end
  end.

(** White space taken off the start; [fuel] bounds the characters taken
    and the length of the text is enough. *)
Fixpoint trim_start (ws : list (list Z)) (fuel : nat) (cs : list ascii)
  : list ascii :=
  match fuel with
  | O => cs
  | S fuel' =>
      match after_white_space ws cs with
      | Some r => trim_start ws fuel' r
      | None => cs
      end
  end.

(** White space taken off both ends: off the end, as off the start of
    the reversed text with each character's bytes reversed. *)
Definition trim (cs : list ascii) : list ascii :=
  let s := trim_start white_space (length cs) cs in
  rev (trim_start (map (@rev Z) white_space) (length s) (rev s)).

Definition digit_of (c : ascii) : option Z :=
  let n := code c in
  if (48 <=? n) && (n <=? 57) then Some (n - 48)
  else if (97 <=? n) && (n <=? 102) then Some (n - 87)
  else if (65 <=? n) && (n <=? 70) then Some (n - 55)
  else None.

Definition digit_in (base : Z) (c : ascii) : option Z :=
  match digit_of c with
  | Some d => if d <? base then Some d else None
  | None => None
  end.

(** The longest prefix of digits in [base]: its value on top of [acc],
    how many digits it has, and the rest of the text. *)
Fixpoint digits (base : Z) (acc : Z) (cs : list ascii) : Z * nat * list ascii :=
  match cs with
  | c :: cs' =>
      match digit_in base c with
      | Some d =>
          let '(v, n, r) := digits base (acc * base + d) cs' in (v, S n, r)
      | None => (acc, O, cs)
      end
  | [] => (acc, O, [])
  end.

(** [d * 2^k <= n], for any integer [k]. *)
Definition pow2_le (n d k : Z) : bool :=
  if 0 <=? k then d * 2 ^ k <=? n else d <=? n * 2 ^ (- k).

(** The integer part of the binary logarithm of [n / d], for positive
    [n] and [d]. *)
Definition floor_log2 (n d : Z) : Z :=
  let k := Z.log2 n - Z.log2 d in
  if pow2_le n d k then k else k - 1.

(** [n / d] rounded to the nearest integer, a tie to the even one. *)
Definition round_half_even (n d : Z) : Z :=
  let m := n / d in
  match 2 * (n mod d) ?= d with
  | Lt => m
  | Gt => m + 1
  | Eq => if Z.even m then m else m + 1
  end.

Definition zero (negative : bool) : number :=
  if negative then NegativeZero else Fin (inject_Z 0).

(** The binary64 value nearest to [n / d] (to [- n / d] when
    [negative]), for [0 <= n] and [0 < d]: 53 bits of significand, a tie
    to the even one, the exponent of the last bit from -1074 to 971,
    infinity beyond. *)
Definition to_binary64 (negative : bool) (n d : Z) : number :=
  if n =? 0 then zero negative
  else
    let e := Z.max (floor_log2 n d - 52) (- 1074) in
    let m := if 0 <=? e then round_half_even n (d * 2 ^ e)
             else round_half_even (n * 2 ^ (- e)) d in
    if m =? 0 then zero negative
    else if (971 <? e) || ((e =? 971) && (m =? 2 ^ 53)) then Infinity negative
    else
      let v := if negative then - m else m in
      if 0 <=? e then Fin (inject_Z (v * 2 ^ e))
      else Fin (Qred (Qmake v (Z.to_pos (2 ^ (- e))))).

(** [m * 10^e] as a number, for [0 <= m]. *)
Definition scale10 (negative : bool) (m e : Z) : number :=
  if 0 <=? e then to_binary64 negative (m * 10 ^ e) 1
  else to_binary64 negative m (10 ^ (- e)).

(** HexIntegerLiteral, OctalIntegerLiteral and BinaryIntegerLiteral,
    after their two-character prefix. *)
Definition radix_literal (base : Z) (cs : list ascii) : number :=
  match digits base 0 cs with
  | (v, S _, []) => to_binary64 false v 1
  | _ => NaN
  end.

(** ExponentPart, after its [e] or [E]. *)
Definition exponent_part (cs : list ascii) : option Z :=
  let '(sgn, ds) :=
    match cs with
    | "+"%char :: r => (1, r)
    | "-"%char :: r => (-1, r)
    | _ => (1, cs)
    end in
  match digits 10 0 ds with
  | (v, S _, []) => Some (sgn * v)
  | _ => None
  end.

(** StrUnsignedDecimalLiteral without [Infinity], with its sign. *)
Definition decimal_literal (negative : bool) (cs : list ascii) : number :=
  let '(i, ni, r1) := digits 10 0 cs in
  let '(m, nf, r2) :=
    match r1 with
    | "."%char :: r => digits 10 i r
    | _ => (i, O, r1)
    end in
  match (ni + nf)%nat with
  | O => NaN
  | S _ =>
      match r2 with
      | [] => scale10 negative m (- Z.of_nat nf)
      | c :: r3 =>
          if Ascii.eqb c "e" || Ascii.eqb c "E" then
            match exponent_part r3 with
            | Some e => scale10 negative m (e - Z.of_nat nf)
            | None => NaN
            end
          else NaN
      end
  end.

Definition infinity_text : list ascii := list_ascii_of_string "Infinity".

Definition signed_literal (negative : bool) (cs : list ascii) : number :=
  if bool_decide (cs = infinity_text) then Infinity negative
  else decimal_literal negative cs.

(** StringToNumber (ECMA-262, 7.1.4.1.1). *)
Definition StringToNumber (s : string) : number :=
  match trim (list_ascii_of_string s) with
  | [] => of_Z 0
  | "0"%char :: p :: r =>
      if Ascii.eqb p "x" || Ascii.eqb p "X" then radix_literal 16 r
      else if Ascii.eqb p "o" || Ascii.eqb p "O" then radix_literal 8 r
      else if Ascii.eqb p "b" || Ascii.eqb p "B" then radix_literal 2 r
      else signed_literal false ("0"%char :: p :: r)
  | "+"%char :: r => signed_literal false r
  | "-"%char :: r => signed_literal true r
  | cs => signed_literal false cs
  end.

End JS.

(** ** Data model *)

Definition Buffer : Type := list Byte.byte.

(** ./socket-status: the four values of the enum the worker uses. *)
Inductive SOCKET_STATUS : Type := PADDING | CONNECTED | CLOSED | RETRY.

#[global] Instance SOCKET_STATUS_eq_dec : EqDecision SOCKET_STATUS.
Proof. solve_decision. Defined.

(** Exceptions a call can throw. *)
Inductive Exn : Type :=
| TypeError (msg : string)
| RangeError (msg : string)
| Error (msg : string).

Inductive Result (A : Type) : Type :=
| Ok (a : A)
| Throw (e : Exn).
Arguments Ok {A} a.
Arguments Throw {A} e.

Definition is_Ok {A : Type} (r : Result A) : bool :=
  match r with Ok _ => true | Throw _ => false end.

(** The module constants. *)
Definition RETRY_NUM : Z := 20.
Definition RETRY_TIME : Z := 3000.

(** The argument of [onConnect] and [onClose]: [{pid, host, port}]. *)
Inductive SocketInfo : Type :=
| socket_info (pid : nat) (host : string) (port : JS.number).

(** An [ISocketSubscriber].  The constructor installs three [noop]
    callbacks; [subscribe] replaces them by the caller's object, which the
    model knows by an identifier. *)
Inductive Subscriber : Type :=
| noop_subscriber
| subscriber (id : nat).

#[global] Instance Subscriber_eq_dec : EqDecision Subscriber.
Proof. solve_decision. Defined.

(** A [net.Socket] as the worker uses it: whether [destroy()] was called,
    whether [setNoDelay()] was, the [(port, host)] given to [connect], the
    events a listener was registered for and the chunks handed to
    [write]. *)
Record Socket : Type := {
  destroyed : bool;
  noDelay : bool;
  connecting : option (JS.number * string);
  listeners : list string;
  written : list Buffer
}.

Inductive TimerState : Type := Pending | Cleared | Fired.

#[global] Instance TimerState_eq_dec : EqDecision TimerState.
Proof. solve_decision. Defined.

(** A timer made by [setTimeout]: its delay in milliseconds and whether
    it is still to fire. *)
Record Timer : Type := {
  delay : Z;
  timer_state : TimerState
}.

(** Modelled from the spec: the heartbeat monitor of
    ../serialization/heartbeat, which is not part of the sources.  It is
    constructed with a label and the transport; [setWriteTimestamp] notes
    an outbound write and [emit] notes that liveness was observed.  The
    two timestamps are kept as the number of notes taken. *)
Record HeartBeat : Type := {
  label : string;
  transport : option nat;
  write_notes : nat;
  liveness_notes : nat
}.

Definition HeartBeat_from (l : string) (t : option nat) : HeartBeat :=
  {| label := l; transport := t; write_notes := 0; liveness_notes := 0 |}.

Definition setWriteTimestamp (hb : HeartBeat) : HeartBeat :=
  {| label := label hb; transport := transport hb;
     write_notes := S (write_notes hb); liveness_notes := liveness_notes hb |}.

Definition emit (hb : HeartBeat) : HeartBeat :=
  {| label := label hb; transport := transport hb;
     write_notes := write_notes hb; liveness_notes := S (liveness_notes hb) |}.

(** The collaborators of the worker that live in other modules: the wire
    encoder and decoder, the heartbeat frame test, the frame assembler and
    the transport's synchronous check of [connect]'s arguments. *)
Class Collaborators : Type := {
  (** [Number(s)] on a string, the conversion of the language *)
  StringToNumber : string -> JS.number;
  (** what [decodeDubboResponse] returns *)
  Response : Type;
  (** the request a [Context] carries *)
  Request : Type;
  (** [HeartBeat.isHeartBeat(data)] *)
  isHeartBeat : Buffer -> bool;
  (** [decodeDubboResponse(data)] *)
  decodeDubboResponse : Buffer -> Result Response;
  (** [new DubboRequestEncoder(ctx).encode()], given the request id, the
      worker id stamped on the context and the request *)
  encode : Z -> option nat -> Request -> Result Buffer;
  (** [DecodeBuffer.receive]: from the buffered bytes and the new chunk,
      the complete frames handed to the subscriber and the bytes kept *)
  receive : Buffer -> Buffer -> list Buffer * Buffer;
  (** [net.Socket.connect(port, host, cb)]: [Some e] when the call throws
      [e] synchronously on its arguments *)
  connect_throws : JS.number -> string -> option Exn
}.

Section Worker.

Context `{Collaborators}.

(** ./context: the request id, the id of the worker that sent it and
    the request. *)
Record Context : Type := {
  requestId : Z;
  ctx_pid : option nat;
  request : Request
}.

Inductive Call : Type :=
| onConnect (i : SocketInfo)
| onData (r : Response)
| onClose (i : SocketInfo).

(** The messages given to [log]. *)
Inductive LogEntry : Type :=
| log_new (pid : nat) (host : string) (port : JS.number) (s : SOCKET_STATUS)
| log_invoked (pid : nat) (requestId : Z)
| log_connecting (pid : nat) (host : string) (port : JS.number)
| log_connected (pid : nat) (host : string) (port : JS.number)
| log_receive_data (pid : nat) (host : string) (port : JS.number)
| log_occur_error (pid : nat) (host : string) (port : JS.number) (error : string)
| log_closed (pid : nat) (host : string) (port : JS.number)
    (hadError : bool) (retry : Z)
| log_heartbeat (pid : nat)
| log_result (pid : nat) (json : Response).

Record SocketWorker : Type := {
  pid : nat;
  host : string;
  port : JS.number;
  _retry : Z;
  _retryTimeoutId : option nat;
  _heartBeatTimer : option HeartBeat;
  _socket : option nat;
  _status : SOCKET_STATUS;
  _decodeBuff : Buffer;
  _subscriber : Subscriber
}.

(** The module-level variables: [let pid], [statistics] and what was
    given to [log]. *)
Record Globals : Type := {
  pid_counter : nat;
  statistics : gmap string JS.number;
  log : list LogEntry
}.

(** The worker, the module's variables, the sockets and timers the
    worker has made (a reference is an index), and the calls made on
    subscribers, oldest first. *)
Record State : Type := {
  this : SocketWorker;
  globals : Globals;
  sockets : list Socket;
  timers : list Timer;
  calls : list (Subscriber * Call)
}.

(** *** Field updates *)

Definition with_retry (v : Z) (w : SocketWorker) : SocketWorker :=
  {| pid := pid w; host := host w; port := port w; _retry := v;
     _retryTimeoutId := _retryTimeoutId w; _heartBeatTimer := _heartBeatTimer w;
     _socket := _socket w; _status := _status w; _decodeBuff := _decodeBuff w;
     _subscriber := _subscriber w |}.

Definition with_retryTimeoutId (v : option nat) (w : SocketWorker) : SocketWorker :=
  {| pid := pid w; host := host w; port := port w; _retry := _retry w;
     _retryTimeoutId := v; _heartBeatTimer := _heartBeatTimer w;
     _socket := _socket w; _status := _status w; _decodeBuff := _decodeBuff w;
     _subscriber := _subscriber w |}.

Definition with_heartBeatTimer (v : option HeartBeat) (w : SocketWorker) : SocketWorker :=
  {| pid := pid w; host := host w; port := port w; _retry := _retry w;
     _retryTimeoutId := _retryTimeoutId w; _heartBeatTimer := v;
     _socket := _socket w; _status := _status w; _decodeBuff := _decodeBuff w;
     _subscriber := _subscriber w |}.

Definition with_socket (v : option nat) (w : SocketWorker) : SocketWorker :=
  {| pid := pid w; host := host w; port := port w; _retry := _retry w;
     _retryTimeoutId := _retryTimeoutId w; _heartBeatTimer := _heartBeatTimer w;
     _socket := v; _status := _status w; _decodeBuff := _decodeBuff w;
     _subscriber := _subscriber w |}.

Definition with_status (v : SOCKET_STATUS) (w : SocketWorker) : SocketWorker :=
  {| pid := pid w; host := host w; port := port w; _retry := _retry w;
     _retryTimeoutId := _retryTimeoutId w; _heartBeatTimer := _heartBeatTimer w;
     _socket := _socket w; _status := v; _decodeBuff := _decodeBuff w;
     _subscriber := _subscriber w |}.

Definition with_decodeBuff (v : Buffer) (w : SocketWorker) : SocketWorker :=
  {| pid := pid w; host := host w; port := port w; _retry := _retry w;
     _retryTimeoutId := _retryTimeoutId w; _heartBeatTimer := _heartBeatTimer w;
     _socket := _socket w; _status := _status w; _decodeBuff := v;
     _subscriber := _subscriber w |}.

Definition with_subscriber (v : Subscriber) (w : SocketWorker) : SocketWorker :=
  {| pid := pid w; host := host w; port := port w; _retry := _retry w;
     _retryTimeoutId := _retryTimeoutId w; _heartBeatTimer := _heartBeatTimer w;
     _socket := _socket w; _status := _status w; _decodeBuff := _decodeBuff w;
     _subscriber := v |}.

Definition with_this (w : SocketWorker) (st : State) : State :=
  {| this := w; globals := globals st; sockets := sockets st;
     timers := timers st; calls := calls st |}.

Definition with_globals (g : Globals) (st : State) : State :=
  {| this := this st; globals := g; sockets := sockets st;
     timers := timers st; calls := calls st |}.

Definition with_sockets (l : list Socket) (st : State) : State :=
  {| this := this st; globals := globals st; sockets := l;
     timers := timers st; calls := calls st |}.

Definition with_timers (l : list Timer) (st : State) : State :=
  {| this := this st; globals := globals st; sockets := sockets st;
     timers := l; calls := calls st |}.

Definition with_calls (l : list (Subscriber * Call)) (st : State) : State :=
  {| this := this st; globals := globals st; sockets := sockets st;
     timers := timers st; calls := l |}.

(** *** The monad of the methods: state, and an exception that leaves
    the state as it was when thrown *)

Definition M (A : Type) : Type := State -> Result A * State.

Definition ret {A : Type} (a : A) : M A := fun st => (Ok a, st).

Definition bind {A B : Type} (m : M A) (k : A -> M B) : M B :=
  fun st =>
    match m st with
    | (Ok a, st') => k a st'
    | (Throw e, st') => (Throw e, st')
    end.

Definition throw {A : Type} (e : Exn) : M A := fun st => (Throw e, st).

Notation "'let*' x ':=' m 'in' k" := (bind m (fun x => k))
  (at level 10, x name, m at level 100, k at level 200).

(** [this] *)
Definition self : M SocketWorker := fun st => (Ok (this st), st).

(** [this.f = v], as an update of [this] *)
Definition assign (f : SocketWorker -> SocketWorker) : M unit :=
  fun st => (Ok tt, with_this (f (this st)) st).

Definition debug (e : LogEntry) : M unit :=
  fun st =>
    let g := globals st in
    (Ok tt, with_globals {| pid_counter := pid_counter g;
                            statistics := statistics g;
                            log := log g ++ [e] |} st).

(** ['pid#' + this.pid] *)
Definition stat_key (p : nat) : string := "pid#" +:+ pretty p.

(** [++x] on a number *)
Definition increment (o : option JS.number) : JS.number :=
  match o with
  | Some (JS.Fin q) => JS.Fin (Qred (Qplus q (inject_Z 1)))
  | Some JS.NegativeZero => JS.of_Z 1
  | Some n => n
  | None => JS.NaN
  end.

(** [statistics[k] = ++statistics[k]] *)
Definition count_invocation (k : string) : M unit :=
  fun st =>
    let g := globals st in
    (Ok tt, with_globals
              {| pid_counter := pid_counter g;
                 statistics := <[k := increment (statistics g !! k)]> (statistics g);
                 log := log g |} st).

(** *** The transport *)

Definition fresh_socket : Socket :=
  {| destroyed := false; noDelay := false; connecting := None;
     listeners := []; written := [] |}.

(** [new net.Socket()] *)
Definition new_Socket : M nat :=
  fun st => (Ok (length (sockets st)),
             with_sockets (sockets st ++ [fresh_socket]) st).

Definition update_socket (i : nat) (f : Socket -> Socket) : M unit :=
  fun st =>
    match sockets st !! i with
    | Some s => (Ok tt, with_sockets (<[i := f s]> (sockets st)) st)
    | None => (Ok tt, st)
    end.

(** [socket.destroy()] *)
Definition Socket_destroy (i : nat) : M unit :=
  update_socket i (fun s =>
    {| destroyed := true; noDelay := noDelay s; connecting := connecting s;
       listeners := listeners s; written := written s |}).

(** [socket.setNoDelay()] *)
Definition Socket_setNoDelay (i : nat) : M unit :=
  update_socket i (fun s =>
    {| destroyed := destroyed s; noDelay := true; connecting := connecting s;
       listeners := listeners s; written := written s |}).

(** [socket.on(event, listener)] *)
Definition Socket_on (i : nat) (event : string) : M unit :=
  update_socket i (fun s =>
    {| destroyed := destroyed s; noDelay := noDelay s; connecting := connecting s;
       listeners := listeners s ++ [event]; written := written s |}).

(** [socket.connect(port, host, listener)]: throws on arguments the
    transport refuses, else starts connecting and registers the
    listener for ['connect']. *)
Definition Socket_connect (i : nat) (p : JS.number) (h : string) : M unit :=
  match connect_throws p h with
  | Some e => throw e
  | None =>
      update_socket i (fun s =>
        {| destroyed := destroyed s; noDelay := noDelay s;
           connecting := Some (p, h);
           listeners := listeners s ++ ["connect"]; written := written s |})
  end.

(** [socket.write(data)]: a destroyed socket takes no data. *)
Definition Socket_write (i : nat) (data : Buffer) : M unit :=
  update_socket i (fun s =>
    if destroyed s then s
    else {| destroyed := destroyed s; noDelay := noDelay s;
            connecting := connecting s; listeners := listeners s;
            written := written s ++ [data] |}).

(** *** Timers *)

(** [clearTimeout(id)]: nothing for [undefined] or a timer that is no
    longer pending. *)
Definition clearTimeout (id : option nat) : M unit :=
  fun st =>
    match id with
    | Some i =>
        match timers st !! i with
        | Some t =>
            match timer_state t with
            | Pending =>
                (Ok tt, with_timers
                          (<[i := {| delay := delay t; timer_state := Cleared |}]>
                             (timers st)) st)
            | _ => (Ok tt, st)
            end
        | None => (Ok tt, st)
        end
    | None => (Ok tt, st)
    end.

(** [setTimeout(callback, ms)]; the worker has one callback, the retry
    of [_onClose]. *)
Definition setTimeout (ms : Z) : M nat :=
  fun st => (Ok (length (timers st)),
             with_timers (timers st ++ [{| delay := ms; timer_state := Pending |}]) st).

(** A call of one of the subscriber's callbacks. *)
Definition notify (c : Call) : M unit :=
  fun st => (Ok tt, with_calls (calls st ++ [(_subscriber (this st), c)]) st).

Definition info (w : SocketWorker) : SocketInfo :=
  socket_info (pid w) (host w) (port w).

(** *** The private methods *)

Definition _initSocket : M unit :=
  let* w := self in
  let* _ := debug (log_connecting (pid w) (host w) (port w)) in
  let* _ := match _socket w with
            | Some s => Socket_destroy s
            | None => ret tt
            end in
  let* s := new_Socket in
  let* _ := assign (with_socket (Some s)) in
  let* _ := Socket_setNoDelay s in
  let* _ := Socket_connect s (port w) (host w) in
  let* _ := Socket_on s "data" in
  let* _ := Socket_on s "error" in
  Socket_on s "close".

Definition _onConnected : M unit :=
  let* w := self in
  let* _ := debug (log_connected (pid w) (host w) (port w)) in
  let* _ := assign (with_status CONNECTED) in
  let* _ := assign (with_retry RETRY_NUM) in
  let* _ := assign (with_heartBeatTimer
                      (Some (HeartBeat_from ("socket-worker:" +:+ pretty (pid w))
                                            (_socket w)))) in
  notify (onConnect (info w)).

Definition _onError (error : string) : M unit :=
  let* w := self in
  debug (log_occur_error (pid w) (host w) (port w) error).

(** The callback [_onClose] gives to [setTimeout]. *)
Definition retry_callback : M unit :=
  let* w := self in
  let* _ := assign (with_retry (_retry w - 1)) in
  _initSocket.

Definition _onClose (hadError : bool) : M unit :=
  let* w := self in
  let* _ := debug (log_closed (pid w) (host w) (port w) hadError (_retry w)) in
  let* _ := assign (with_decodeBuff []) in
  if 0 <? _retry w then
    let* _ := assign (with_status RETRY) in
    let* _ := clearTimeout (_retryTimeoutId w) in
    let* id := setTimeout RETRY_TIME in
    assign (with_retryTimeoutId (Some id))
  else
    let* _ := assign (with_status CLOSED) in
    let* _ := match _socket w with
              | Some s => Socket_destroy s
              | None => throw (TypeError "Cannot read property 'destroy' of undefined")
              end in
    notify (onClose (info w)).

Definition _onSubscribeDecodeBuff (data : Buffer) : M unit :=
  let* w := self in
  if isHeartBeat data then
    let* _ := debug (log_heartbeat (pid w)) in
    match _heartBeatTimer w with
    | Some hb => assign (with_heartBeatTimer (Some (emit hb)))
    | None => throw (TypeError "Cannot read property 'emit' of undefined")
    end
  else
    match decodeDubboResponse data with
    | Ok json =>
        let* _ := debug (log_result (pid w) json) in
        notify (onData json)
    | Throw e => throw e
    end.

(** The frames of one [receive], handed to the subscriber of the
    [DecodeBuffer] one after the other. *)
Fixpoint deliver (frames : list Buffer) : M unit :=
  match frames with
  | [] => ret tt
  | f :: fs => let* _ := _onSubscribeDecodeBuff f in deliver fs
  end.

Definition _onData (data : Buffer) : M unit :=
  let* w := self in
  let* _ := debug (log_receive_data (pid w) (host w) (port w)) in
  let '(frames, rest) := receive (_decodeBuff w) data in
  let* _ := assign (with_decodeBuff rest) in
  deliver frames.

(** *** The public methods *)

(** [Number(v)] for a string or [undefined] ([None]). *)
Definition Number (v : option string) : JS.number :=
  match v with
  | Some s => StringToNumber s
  | None => JS.NaN
  end.

Definition new_SocketWorker (h : string) (p : JS.number) (g : Globals)
  : Result unit * State :=
  let id := S (pid_counter g) in
  _initSocket
    {| this := {| pid := id; host := h; port := p;
                  _retry := RETRY_NUM;
                  _retryTimeoutId := None;
                  _heartBeatTimer := None;
                  _socket := None;
                  _status := PADDING;
                  _decodeBuff := [];
                  _subscriber := noop_subscriber |};
       globals := {| pid_counter := id;
                     statistics := <[stat_key id := JS.of_Z 0]> (statistics g);
                     log := log g ++ [log_new id h p PADDING] |};
       sockets := [];
       timers := [];
       calls := [] |}.

(** [SocketWorker.from(url)]; [Ok] stands for the worker returned, which
    is [this] of the state. *)
Definition from (url : string) (g : Globals) : Result unit * State :=
  let parts := JS.split ":" url in
  new_SocketWorker (hd "" parts) (Number (parts !! 1%nat)) g.

(** [write(ctx)]; the context comes back as the call leaves it. *)
Definition write (ctx : Context) : M Context :=
  let* w := self in
  let* _ := debug (log_invoked (pid w) (requestId ctx)) in
  let* _ := count_invocation (stat_key (pid w)) in
  let* _ := match _heartBeatTimer w with
            | Some hb => assign (with_heartBeatTimer (Some (setWriteTimestamp hb)))
            | None =>
                throw (TypeError "Cannot read property 'setWriteTimestamp' of undefined")
            end in
  let ctx' := {| requestId := requestId ctx; ctx_pid := Some (pid w);
                 request := request ctx |} in
  match _socket w with
  | None => throw (TypeError "Cannot read property 'write' of undefined")
  | Some s =>
      match encode (requestId ctx') (ctx_pid ctx') (request ctx') with
      | Throw e => throw e
      | Ok bytes => let* _ := Socket_write s bytes in ret ctx'
      end
  end.

Definition status (w : SocketWorker) : SOCKET_STATUS := _status w.

Definition isAvaliable (w : SocketWorker) : bool :=
  bool_decide (_status w = CONNECTED).

Definition isRetry (w : SocketWorker) : bool :=
  bool_decide (_status w = RETRY).

Definition resetRetry : M unit :=
  let* _ := assign (with_retry RETRY_NUM) in
  let* w := self in
  if bool_decide (_status w = CLOSED) then _initSocket else ret tt.

Definition subscribe (s : Subscriber) : M unit :=
  assign (with_subscriber s).

(** *** What the runtime delivers to a worker *)

Inductive Event : Type :=
| ev_connect
| ev_data (data : Buffer)
| ev_error (error : string)
| ev_close (hadError : bool)
| ev_retry_timeout (id : nat)
| ev_heartbeat_timeout
| call_write (ctx : Context)
| call_resetRetry
| call_subscribe (s : Subscriber).

(** A timer fires only while it is pending; everything else can come at
    any time. *)
Definition enabled (e : Event) (st : State) : bool :=
  match e with
  | ev_retry_timeout id =>
      match timers st !! id with
      | Some t => bool_decide (timer_state t = Pending)
      | None => false
      end
  | _ => true
  end.

(** The timer [id] leaves the pending state as it fires. *)
Definition fire (id : nat) : M unit :=
  fun st =>
    match timers st !! id with
    | Some t =>
        (Ok tt, with_timers (<[id := {| delay := delay t; timer_state := Fired |}]>
                               (timers st)) st)
    | None => (Ok tt, st)
    end.

Definition handle (e : Event) : M unit :=
  match e with
  | ev_connect => _onConnected
  | ev_data data => _onData data
  | ev_error error => _onError error
  | ev_close hadError => _onClose hadError
  | ev_retry_timeout id => let* _ := fire id in retry_callback
  | ev_heartbeat_timeout => _onClose false
  | call_write ctx => let* _ := write ctx in ret tt
  | call_resetRetry => resetRetry
  | call_subscribe s => subscribe s
  end.

(** One delivery: the state it leaves, whether it returned or threw. *)
Definition step (e : Event) (st : State) : State := snd (handle e st).

(** The events of a list one after the other; [None] when one of them
    cannot be delivered. *)
Fixpoint run (es : list Event) (st : State) : option State :=
  match es with
  | [] => Some st
  | e :: es' => if enabled e st then run es' (step e st) else None
  end.

(** The states a worker made by [from] goes through. *)
Inductive reachable (url : string) (g : Globals) : State -> Prop :=
| reachable_from st :
    from url g = (Ok tt, st) -> reachable url g st
| reachable_step st e :
    reachable url g st -> enabled e st = true -> reachable url g (step e st).

(** The sockets after the [destroy()] with which [_initSocket] starts. *)
Definition release (o : option nat) (l : list Socket) : list Socket :=
  match o with
  | Some i =>
      match l !! i with
      | Some s =>
          <[i := {| destroyed := true; noDelay := noDelay s;
                    connecting := connecting s; listeners := listeners s;
                    written := written s |}]> l
      | None => l
      end
  | None => l
  end.

(** The socket [_initSocket] leaves behind when [connect] took its
    arguments. *)
Definition connecting_socket (p : JS.number) (h : string) : Socket :=
  {| destroyed := false; noDelay := true; connecting := Some (p, h);
     listeners := ["connect"; "data"; "error"; "close"]; written := [] |}.

(** The socket [_initSocket] leaves behind when [connect] threw. *)
Definition refused_socket : Socket :=
  {| destroyed := false; noDelay := true; connecting := None;
     listeners := []; written := [] |}.

(** The timers after [clearTimeout(id)]. *)
Definition cancel (o : option nat) (l : list Timer) : list Timer :=
  match o with
  | Some i =>
      match l !! i with
      | Some t =>
          match timer_state t with
          | Pending => <[i := {| delay := delay t; timer_state := Cleared |}]> l
          | _ => l
          end
      | None => l
      end
  | None => l
  end.

Definition retry_timer : Timer :=
  {| delay := RETRY_TIME; timer_state := Pending |}.

Definition logged (e : LogEntry) (g : Globals) : Globals :=
  {| pid_counter := pid_counter g; statistics := statistics g;
     log := log g ++ [e] |}.

(** The fields of the worker that decide connects and retries. *)
Definition control (w : SocketWorker)
  : Z * option nat * option nat * SOCKET_STATUS * Subscriber :=
  (_retry w, _retryTimeoutId w, _socket w, _status w, _subscriber w).

(** Every pending timer is the one in [_retryTimeoutId], and one is
    pending only while a retry remains. *)
Definition timer_inv (st : State) : Prop :=
  0 <= _retry (this st) <= RETRY_NUM /\
  forall i t, timers st !! i = Some t -> timer_state t = Pending ->
              _retryTimeoutId (this st) = Some i /\ 0 < _retry (this st).

(** Every socket that was not destroyed is the one in [_socket]. *)
Definition socket_inv (st : State) : Prop :=
  forall i s, sockets st !! i = Some s -> destroyed s = false ->
              _socket (this st) = Some i.

(** A worker whose last attempt failed with [r] retries left: it waits
    for the retry timer [t], the newest timer.  [obs], [i0] and [cs] are
    its subscriber, its identity and the calls made so far. *)
Definition awaiting_retry (obs : Subscriber) (i0 : SocketInfo)
    (cs : list (Subscriber * Call)) (r : Z) (t : nat) (st : State) : Prop :=
  _retry (this st) = r /\
  _status (this st) = RETRY /\
  _retryTimeoutId (this st) = Some t /\
  length (timers st) = S t /\
  timers st !! t = Some retry_timer /\
  Forall (fun tm => delay tm = RETRY_TIME) (timers st) /\
  is_Some (_socket (this st)) /\
  connect_throws (port (this st)) (host (this st)) = None /\
  _subscriber (this st) = obs /\
  info (this st) = i0 /\
  calls st = cs.

(** No ['connect'] callback among the events. *)
Definition never_connected (es : list Event) : bool :=
  forallb (fun e => match e with ev_connect => false | _ => true end) es.

(** The module before any worker is made: [let pid = 0], no statistics,
    nothing logged. *)
Definition fresh_module : Globals :=
  {| pid_counter := 0; statistics := ∅; log := [] |}.

(** *** Scenario: the transport fails to connect on every attempt *)

(** One failed attempt: the socket emits ['error'], then ['close'] with
    [hadError]. *)
Definition connect_failure (error : string) : list Event :=
  [ev_error error; ev_close true].

(** [n] times: the retry timer [t], [t+1], ... fires [RETRY_TIME] after
    the closure that made it, and the attempt it starts fails. *)
Fixpoint failed_retries (error : string) (t : nat) (n : nat) : list Event :=
  match n with
  | O => []
  | S n' =>
      ev_retry_timeout t :: connect_failure error ++ failed_retries error (S t) n'
  end.

(** The first [n] connect failures of a new worker, the first one being
    that of the attempt the constructor starts. *)
Definition connect_failures (error : string) (n : nat) : list Event :=
  match n with
  | O => []
  | S n' => connect_failure error ++ failed_retries error 0 n'
  end.

(** The [onClose] notifications a subscriber received. *)
Definition onClose_received (s : Subscriber) (st : State) : list SocketInfo :=
  omap (fun c => match c with
                 | (s', onClose i) => if bool_decide (s' = s) then Some i else None
                 | _ => None
                 end) (calls st).

(** The [onData] calls made, on any subscriber. *)
Definition onData_calls (st : State) : list Response :=
  omap (fun c => match c with (_, onData r) => Some r | _ => None end) (calls st).

Definition is_pending (t : Timer) : bool :=
  bool_decide (timer_state t = Pending).

(** The retry timers that are still to fire. *)
Definition pending_timers (st : State) : list Timer :=
  List.filter is_pending (timers st).

(** The transport handles not released by [destroy]. *)
Definition open_sockets (st : State) : list Socket :=
  List.filter (fun s => negb (destroyed s)) (sockets st).

(** *** Notions for the properties of whole runs *)

(** The [{pid, host, port}] a call carries: [onConnect] and [onClose]
    carry one, [onData] does not. *)
Definition notified (c : Call) : option SocketInfo :=
  match c with
  | onConnect i | onClose i => Some i
  | onData _ => None
  end.

(** [st'] comes after [st]: the worker has the same pid, host and port,
    the module's counter is the same, and the calls are those of [st]
    followed by calls on the subscriber [st] has, which carry the pid,
    host and port of the worker. *)
Definition follows (st st' : State) : Prop :=
  info (this st') = info (this st) /\
  pid_counter (globals st') = pid_counter (globals st) /\
  exists new,
    calls st' = calls st ++ new /\
    Forall (fun c => fst c = _subscriber (this st) /\
                     forall i, notified (snd c) = Some i -> i = info (this st))
           new.

(** How many of the events are calls of [write]. *)
Definition writes (es : list Event) : nat :=
  length (List.filter (fun e => match e with call_write _ => true | _ => false end) es).

(** The responses of the frames of a chunk that are no heartbeat, when
    every one of them decodes. *)
Fixpoint responses (frames : list Buffer) : option (list Response) :=
  match frames with
  | [] => Some []
  | f :: fs =>
      if isHeartBeat f then responses fs
      else match decodeDubboResponse f, responses fs with
           | Ok json, Some rs => Some (json :: rs)
           | _, _ => None
           end
  end.

(** How many frames of a chunk are heartbeats. *)
Definition heartbeats (frames : list Buffer) : nat :=
  length (List.filter isHeartBeat frames).

End Worker.

(** ** An instance of the collaborators, for concrete runs *)

(** The check lib/net.js makes on the port given to [connect]
    ([isLegalPort]): an integer from 0 to 65535. *)
Definition isLegalPort (p : JS.number) : bool :=
  match p with
  | JS.Fin q =>
      let r := Qred q in
      Pos.eqb (Qden r) 1 && (0 <=? Qnum r) && (Qnum r <=? 65535)
  | JS.NegativeZero => true
  | _ => false
  end.

(** The length of the body of a dubbo frame: the last four bytes of
    its header of 16, big endian. *)
Definition body_length (bytes : Buffer) : nat :=
  match drop 12 bytes with
  | a :: b :: c :: d :: _ =>
      N.to_nat (((Byte.to_N a * 256 + Byte.to_N b) * 256 + Byte.to_N c) * 256
                + Byte.to_N d)
  | _ => O
  end.

(** The complete frames at the start of [bytes], header and body, and
    the bytes after them; [fuel] bounds the frames and the length of
    [bytes] is enough. *)
Fixpoint frames_of (fuel : nat) (bytes : Buffer) : list Buffer * Buffer :=
  match fuel with
  | O => ([], bytes)
  | S fuel' =>
      if (length bytes <? 16)%nat then ([], bytes)
      else
        let n := (16 + body_length bytes)%nat in
        if (length bytes <? n)%nat then ([], bytes)
        else
          let '(fs, rest) := frames_of fuel' (drop n bytes) in
          (take n bytes :: fs, rest)
  end.

(** The assembler cuts the buffered bytes and the chunk into dubbo
    frames and keeps what is left of them; a frame is a heartbeat when
    its third byte has the event flag [0x20] and a response is the frame
    itself; [connect] throws a [RangeError] on a port that is not legal. *)
Definition node_collaborators : Collaborators :=
  {| StringToNumber := JS.StringToNumber;
     Response := Buffer;
     Request := Buffer;
     isHeartBeat := fun data =>
       match data !! 2%nat with
       | Some b => Z.testbit (Z.of_N (Byte.to_N b)) 5
       | None => false
       end;
     decodeDubboResponse := fun data =>
       match data with
       | [] => Throw (Error "empty frame")
       | _ => Ok data
       end;
     encode := fun _ _ req => Ok req;
     receive := fun buffered data =>
       frames_of (length (buffered ++ data)) (buffered ++ data);
     connect_throws := fun p _ =>
       if isLegalPort p then None
       else Some (RangeError "Port should be >= 0 and < 65536") |}.

(** The claim's "numeric port": the text after the first colon of the
    endpoint is a non-empty run of decimal digits. *)
Definition numeric_port (url : string) : bool :=
  match JS.split ":" url !! 1%nat with
  | Some p =>
      negb (String.eqb p "")
      && forallb (fun c => bool_decide (JS.digit_in 10 c <> None))
                 (list_ascii_of_string p)
  | None => false
  end.

(** A worker for 127.0.0.1:20880 in a fresh module; the same worker after
    its first connect failure, and after its 20th and 21st. *)
Definition example_worker : State :=
  snd (from (H := node_collaborators) "127.0.0.1:20880" fresh_module).

Definition example_failures (n : nat) : list Event :=
  call_subscribe (H := node_collaborators) (subscriber 1)
    :: connect_failures "ECONNREFUSED" n.

Definition example_after (n : nat) : State :=
  default example_worker (run (example_failures n) example_worker).

(** Whether every event of the first [n] failures can be delivered. *)
Definition example_runs (n : nat) : bool :=
  match run (example_failures n) example_worker with
  | Some _ => true
  | None => false
  end.

Definition example_context : Context (H := node_collaborators) :=
  @Build_Context node_collaborators 1 None [].

(** No colon in the text. *)
Fixpoint colon_free (s : string) : bool :=
  match s with
  | EmptyString => true
  | String c s' => negb (Ascii.eqb c ":") && colon_free s'
  end.

(** The example worker after the events [es]. *)
Definition example_state (es : list (Event (H := node_collaborators))) : State :=
  default example_worker (run es example_worker).

Definition example_delivers (es : list (Event (H := node_collaborators))) : bool :=
  match run es example_worker with
  | Some _ => true
  | None => false
  end.

(** The example worker connects; then its transport closes and every
    attempt to connect again fails. *)
Definition example_connect : list (Event (H := node_collaborators)) :=
  [call_subscribe (subscriber 1); ev_connect].

Definition example_connect_then_fail : list (Event (H := node_collaborators)) :=
  example_connect ++ connect_failures "ECONNRESET" 21.

(** A response frame with a body of two bytes, a heartbeat frame (event
    flag in the third byte) with a body of one, and another response
    frame, with no body. *)
Definition example_response_1 : Buffer :=
  [Byte.xda; Byte.xbb; Byte.x02; Byte.x14;
   Byte.x00; Byte.x00; Byte.x00; Byte.x00; Byte.x00; Byte.x00; Byte.x00; Byte.x01;
   Byte.x00; Byte.x00; Byte.x00; Byte.x02; Byte.x91; Byte.x4e].

Definition example_heartbeat : Buffer :=
  [Byte.xda; Byte.xbb; Byte.xe2; Byte.x14;
   Byte.x00; Byte.x00; Byte.x00; Byte.x00; Byte.x00; Byte.x00; Byte.x00; Byte.x02;
   Byte.x00; Byte.x00; Byte.x00; Byte.x01; Byte.x4e].

Definition example_response_2 : Buffer :=
  [Byte.xda; Byte.xbb; Byte.x02; Byte.x14;
   Byte.x00; Byte.x00; Byte.x00; Byte.x00; Byte.x00; Byte.x00; Byte.x00; Byte.x03;
   Byte.x00; Byte.x00; Byte.x00; Byte.x00].

(** The example worker, connected, with the first ten bytes of the first
    response in its buffer; and a chunk that completes that frame, brings
    the heartbeat and the second response whole and the first two bytes
    of a further frame. *)
Definition example_buffering : list (Event (H := node_collaborators)) :=
  example_connect ++ [ev_data (take 10 example_response_1)].

Definition example_chunk : Buffer :=
  drop 10 example_response_1 ++ example_heartbeat ++ example_response_2
    ++ [Byte.xda; Byte.xbb].

(** ** Properties *)

Section WorkerProperties.

Context `{Collaborators}.

Implicit Types (st : State) (w : SocketWorker) (e : Event).

(** *** What the handlers compute *)

Lemma length_release o (l : list Socket) : length (release o l) = length l.
Proof.
  unfold release. destruct o as [i|]; [|done].
  destruct (l !! i); [|done]. by rewrite length_insert.
Qed.

Lemma update_socket_last f st (l : list Socket) s :
  sockets st = l ++ [s] ->
  update_socket (length l) f st = (Ok tt, with_sockets (l ++ [f s]) st).
Proof.
  intros E. unfold update_socket. rewrite E.
  rewrite list_lookup_middle by done.
  rewrite insert_app_r_alt by lia.
  by rewrite Nat.sub_diag.
Qed.

Lemma Socket_destroy_release i st :
  Socket_destroy i st = (Ok tt, with_sockets (release (Some i) (sockets st)) st).
Proof.
  unfold Socket_destroy, update_socket, release.
  destruct (sockets st !! i); [done|]. by destruct st.
Qed.

(** [_initSocket] when [connect] takes the endpoint: the socket in
    [_socket] is destroyed, a new one is made, set to no-delay, told to
    connect and listened to, and [_socket] refers to it. *)
Lemma _initSocket_accepted st :
  connect_throws (port (this st)) (host (this st)) = None ->
  _initSocket st =
    (Ok tt,
     {| this := with_socket (Some (length (sockets st))) (this st);
        globals := logged (log_connecting (pid (this st)) (host (this st))
                                          (port (this st))) (globals st);
        sockets := release (_socket (this st)) (sockets st)
                     ++ [connecting_socket (port (this st)) (host (this st))];
        timers := timers st;
        calls := calls st |}).
Proof.
  intros Hc. unfold _initSocket, bind, self, debug. cbn [fst snd].
  set (st1 := with_globals _ st).
  assert (Hrel : exists st2,
    (match _socket (this st) with
     | Some s => Socket_destroy s
     | None => ret tt
     end) st1 = (Ok tt, st2)
    /\ st2 = with_sockets (release (_socket (this st)) (sockets st)) st1).
  { destruct (_socket (this st)) as [i|].
    - eexists. split; [apply Socket_destroy_release|done].
    - eexists. split; [done|]. by destruct st. }
  destruct Hrel as (st2 & -> & ->).
  unfold new_Socket, assign. cbn [sockets with_sockets with_this this].
  rewrite length_release.
  set (l := release _ _).
  assert (Hl : length (sockets st) = length l) by (unfold l; by rewrite length_release).
  rewrite Hl.
  unfold Socket_setNoDelay.
  erewrite update_socket_last by reflexivity.
  unfold Socket_connect. cbn [this with_sockets with_this st1 with_globals].
  rewrite Hc.
  erewrite update_socket_last by reflexivity.
  unfold Socket_on.
  erewrite update_socket_last by reflexivity.
  erewrite update_socket_last by reflexivity.
  erewrite update_socket_last by reflexivity.
  reflexivity.
Qed.

Lemma _initSocket_refused st x :
  connect_throws (port (this st)) (host (this st)) = Some x ->
  _initSocket st =
    (Throw x,
     {| this := with_socket (Some (length (sockets st))) (this st);
        globals := logged (log_connecting (pid (this st)) (host (this st))
                                          (port (this st))) (globals st);
        sockets := release (_socket (this st)) (sockets st) ++ [refused_socket];
        timers := timers st;
        calls := calls st |}).
Proof.
  intros Hc. unfold _initSocket, bind, self, debug. cbn [fst snd].
  set (st1 := with_globals _ st).
  assert (Hrel :
    (match _socket (this st) with
     | Some s => Socket_destroy s
     | None => ret tt
     end) st1
    = (Ok tt, with_sockets (release (_socket (this st)) (sockets st)) st1)).
  { destruct (_socket (this st)) as [i|].
    - by rewrite Socket_destroy_release.
    - unfold st1. by destruct st. }
  rewrite Hrel.
  unfold new_Socket, assign. cbn [sockets with_sockets with_this this].
  rewrite length_release.
  set (l := release _ _).
  assert (Hl : length (sockets st) = length l) by (unfold l; by rewrite length_release).
  rewrite Hl.
  unfold Socket_setNoDelay.
  erewrite update_socket_last by reflexivity.
  unfold Socket_connect. cbn [this with_sockets with_this st1 with_globals].
  rewrite Hc. reflexivity.
Qed.

(** Whatever [connect] does, [_initSocket] releases the old handle,
    opens one new handle and touches nothing else but the log. *)
Lemma _initSocket_effect st :
  exists r s,
    destroyed s = false /\
    _initSocket st =
      (r,
       {| this := with_socket (Some (length (sockets st))) (this st);
          globals := logged (log_connecting (pid (this st)) (host (this st))
                                            (port (this st))) (globals st);
          sockets := release (_socket (this st)) (sockets st) ++ [s];
          timers := timers st;
          calls := calls st |}).
Proof.
  destruct (connect_throws (port (this st)) (host (this st))) as [x|] eqn:Hc.
  - exists (Throw x), refused_socket. split; [done|]. by apply _initSocket_refused.
  - exists (Ok tt), (connecting_socket (port (this st)) (host (this st))).
    split; [done|]. by apply _initSocket_accepted.
Qed.

Lemma length_cancel o (l : list Timer) : length (cancel o l) = length l.
Proof.
  unfold cancel. destruct o as [i|]; [|done].
  destruct (l !! i) as [t|]; [|done].
  destruct (timer_state t); try done. by rewrite length_insert.
Qed.

Lemma clearTimeout_cancel o st :
  clearTimeout o st = (Ok tt, with_timers (cancel o (timers st)) st).
Proof.
  unfold clearTimeout, cancel. destruct st as [w g ss ts cs]. cbn.
  destruct o as [i|]; [|done].
  destruct (ts !! i) as [t|]; [|done].
  by destruct (timer_state t).
Qed.

(** A closure while retries remain: the buffer is cleared, the status
    is RETRY, the timer in [_retryTimeoutId] is cancelled and a new one
    is made. *)
Lemma _onClose_retry hadError st :
  0 < _retry (this st) ->
  _onClose hadError st =
    (Ok tt,
     {| this := with_retryTimeoutId (Some (length (timers st)))
                  (with_status RETRY (with_decodeBuff [] (this st)));
        globals := logged (log_closed (pid (this st)) (host (this st))
                             (port (this st)) hadError (_retry (this st)))
                          (globals st);
        sockets := sockets st;
        timers := cancel (_retryTimeoutId (this st)) (timers st) ++ [retry_timer];
        calls := calls st |}).
Proof.
  intros Hr. unfold _onClose, bind, self, debug, assign. cbn [fst snd].
  apply Z.ltb_lt in Hr. rewrite Hr.
  rewrite clearTimeout_cancel. unfold setTimeout.
  cbn. by rewrite length_cancel.
Qed.

(** A closure when no retry remains: the buffer is cleared, the status
    is CLOSED, the socket is destroyed and the subscriber is told. *)
Lemma _onClose_exhausted hadError st i :
  _retry (this st) <= 0 ->
  _socket (this st) = Some i ->
  _onClose hadError st =
    (Ok tt,
     {| this := with_status CLOSED (with_decodeBuff [] (this st));
        globals := logged (log_closed (pid (this st)) (host (this st))
                             (port (this st)) hadError (_retry (this st)))
                          (globals st);
        sockets := release (Some i) (sockets st);
        timers := timers st;
        calls := calls st ++ [(_subscriber (this st), onClose (info (this st)))] |}).
Proof.
  intros Hr Hs. unfold _onClose, bind, self, debug, assign. cbn [fst snd].
  assert (Hr' : (0 <? _retry (this st)) = false) by (apply Z.ltb_ge; lia).
  rewrite Hr', Hs. rewrite Socket_destroy_release. reflexivity.
Qed.

Local Arguments _initSocket : simpl never.
Local Arguments _onClose : simpl never.
Local Arguments release : simpl never.
Local Arguments cancel : simpl never.

Ltac unfold_handlers :=
  unfold _onConnected, _onError, _onData, _onSubscribeDecodeBuff, retry_callback,
    resetRetry, subscribe, write, Socket_write, update_socket, notify, debug,
    count_invocation, fire, assign, self, bind, ret, throw in *.

Ltac init_effect :=
  match goal with
  | |- context [ _initSocket ?s ] =>
      let r := fresh "r" in
      let sk := fresh "sk" in
      let Hd := fresh "Hd" in
      let E := fresh "E" in
      destruct (_initSocket_effect s) as (r & sk & Hd & E); rewrite E; clear E
  end.

(** *** The heartbeat monitor exists only once a connection succeeded *)

Lemma dispatch_without_monitor data st :
  _heartBeatTimer (this st) = None ->
  _heartBeatTimer (this (snd (_onSubscribeDecodeBuff data st))) = None.
Proof.
  intros Hn. unfold_handlers. rewrite Hn.
  destruct (isHeartBeat data); [done|].
  by destruct (decodeDubboResponse data).
Qed.

Lemma deliver_without_monitor frames : forall st,
  _heartBeatTimer (this st) = None ->
  _heartBeatTimer (this (snd (deliver frames st))) = None.
Proof.
  induction frames as [|f fs IH]; intros st Hn; [done|].
  cbn [deliver]. unfold bind.
  pose proof (dispatch_without_monitor f st Hn) as Hf.
  destruct (_onSubscribeDecodeBuff f st) as [[[]|x] st1]; cbn in *; [|done].
  by apply IH.
Qed.

Lemma _onClose_monitor hadError st :
  _heartBeatTimer (this (snd (_onClose hadError st))) = _heartBeatTimer (this st).
Proof.
  destruct (Z_lt_le_dec 0 (_retry (this st))) as [Hr|Hr].
  - by rewrite _onClose_retry.
  - destruct (_socket (this st)) as [i|] eqn:Hs.
    + by erewrite _onClose_exhausted.
    + unfold _onClose, bind, self, debug, assign, throw. cbn.
      assert (Hr' : (0 <? _retry (this st)) = false) by (apply Z.ltb_ge; lia).
      by rewrite Hr', Hs.
Qed.

Lemma step_without_monitor e st :
  e <> ev_connect ->
  _heartBeatTimer (this st) = None ->
  _heartBeatTimer (this (step e st)) = None.
Proof.
  intros Hne Hn. unfold step.
  destruct e as [|data|error|hadError|id| |ctx| |s]; cbn [handle]; try done.
  - unfold _onData, bind, self, debug, assign. cbn.
    destruct (receive (_decodeBuff (this st)) data) as [frames rest].
    by apply deliver_without_monitor.
  - by rewrite _onClose_monitor.
  - unfold_handlers. destruct (timers st !! id); cbn; by init_effect.
  - by rewrite _onClose_monitor.
  - unfold_handlers. cbn. by rewrite Hn.
  - unfold_handlers. cbn. case_bool_decide; [by init_effect|done].
Qed.

Lemma run_without_monitor es : forall st st',
  _heartBeatTimer (this st) = None ->
  run es st = Some st' ->
  never_connected es = true ->
  _heartBeatTimer (this st') = None.
Proof.
  induction es as [|e es IH]; intros st st' Hn Hrun Hes; cbn in Hrun, Hes.
  - congruence.
  - destruct (enabled e st); [|done].
    apply andb_true_iff in Hes as [Hne Hes].
    eapply IH; [|exact Hrun|exact Hes].
    apply step_without_monitor; [by intros ->|done].
Qed.

Lemma from_Ok_accepted url g st :
  from url g = (Ok tt, st) ->
  connect_throws (port (this st)) (host (this st)) = None.
Proof.
  unfold from, new_SocketWorker. intros E.
  match type of E with _initSocket ?s = _ => set (s0 := s) in * end.
  destruct (connect_throws (port (this s0)) (host (this s0))) as [x|] eqn:Hc.
  - rewrite (_initSocket_refused s0 x Hc) in E. done.
  - rewrite (_initSocket_accepted s0 Hc) in E. by simplify_eq.
Qed.

Lemma from_returned url g :
  fst (from url g) = Ok tt -> from url g = (Ok tt, snd (from url g)).
Proof. destruct (from url g) as [r st]. cbn. by intros ->. Qed.

Lemma from_Ok_state url g st :
  from url g = (Ok tt, st) ->
  let parts := JS.split ":" url in
  let h := hd "" parts in
  let p := Number (parts !! 1%nat) in
  let id := S (pid_counter g) in
  st = {| this := {| pid := id; host := h; port := p;
                     _retry := RETRY_NUM;
                     _retryTimeoutId := None;
                     _heartBeatTimer := None;
                     _socket := Some 0%nat;
                     _status := PADDING;
                     _decodeBuff := [];
                     _subscriber := noop_subscriber |};
          globals := {| pid_counter := id;
                        statistics := <[stat_key id := JS.of_Z 0]> (statistics g);
                        log := (log g ++ [log_new id h p PADDING])
                                 ++ [log_connecting id h p] |};
          sockets := [connecting_socket p h];
          timers := [];
          calls := [] |}.
Proof.
  intros E. pose proof (from_Ok_accepted _ _ _ E) as Hc.
  unfold from, new_SocketWorker in E.
  match type of E with _initSocket ?s = _ => set (s0 := s) in * end.
  destruct (connect_throws (port (this s0)) (host (this s0))) as [x|] eqn:Hc0.
  - rewrite (_initSocket_refused s0 x Hc0) in E. done.
  - rewrite (_initSocket_accepted s0 Hc0) in E. by simplify_eq.
Qed.

(** *** Handlers that leave connects and retries alone *)

Lemma control_inv w w' :
  control w' = control w ->
  _retry w' = _retry w /\ _retryTimeoutId w' = _retryTimeoutId w /\
  _socket w' = _socket w /\ _status w' = _status w /\
  _subscriber w' = _subscriber w.
Proof. unfold control. intros E. by injection E. Qed.

Lemma dispatch_frame data st :
  let st' := snd (_onSubscribeDecodeBuff data st) in
  control (this st') = control (this st) /\
  sockets st' = sockets st /\ timers st' = timers st.
Proof.
  unfold_handlers. destruct (isHeartBeat data).
  - by destruct (_heartBeatTimer (this st)).
  - by destruct (decodeDubboResponse data).
Qed.

Lemma deliver_frame frames : forall st,
  let st' := snd (deliver frames st) in
  control (this st') = control (this st) /\
  sockets st' = sockets st /\ timers st' = timers st.
Proof.
  induction frames as [|f fs IH]; intros st; [done|].
  cbn [deliver]. unfold bind.
  pose proof (dispatch_frame f st) as Hf.
  destruct (_onSubscribeDecodeBuff f st) as [[[]|x] st1]; cbn in *; [|done].
  destruct Hf as (Hc & Hs & Ht), (IH st1) as (Hc' & Hs' & Ht').
  rewrite Hc', Hs', Ht'. done.
Qed.

Lemma _onData_frame data st :
  let st' := snd (_onData data st) in
  control (this st') = control (this st) /\
  sockets st' = sockets st /\ timers st' = timers st.
Proof.
  unfold _onData, bind, self, debug, assign. cbn.
  destruct (receive (_decodeBuff (this st)) data) as [frames rest].
  match goal with |- context [ deliver frames ?s ] => apply (deliver_frame frames s) end.
Qed.

Lemma write_frame ctx st :
  let st' := snd (write ctx st) in
  control (this st') = control (this st) /\
  destroyed <$> sockets st' = destroyed <$> sockets st /\
  timers st' = timers st /\ calls st' = calls st.
Proof.
  unfold_handlers. cbn.
  destruct (_heartBeatTimer (this st)); cbn; [|done].
  destruct (_socket (this st)) as [i|]; cbn; [|done].
  destruct (encode _ _ _); cbn; [|done].
  destruct (sockets st !! i) as [s|] eqn:Hi; cbn; [|done].
  repeat split; try done.
  rewrite list_fmap_insert. apply list_insert_id.
  rewrite list_lookup_fmap, Hi. cbn. destruct (destroyed s) eqn:Hd; cbn; congruence.
Qed.

Lemma _onConnected_effect st :
  _onConnected st =
    (Ok tt,
     {| this := with_heartBeatTimer
                  (Some (HeartBeat_from ("socket-worker:" +:+ pretty (pid (this st)))
                                        (_socket (this st))))
                  (with_retry RETRY_NUM (with_status CONNECTED (this st)));
        globals := logged (log_connected (pid (this st)) (host (this st))
                                         (port (this st))) (globals st);
        sockets := sockets st;
        timers := timers st;
        calls := calls st ++ [(_subscriber (this st), onConnect (info (this st)))] |}).
Proof. reflexivity. Qed.

Lemma _onError_effect error st :
  _onError error st =
    (Ok tt,
     with_globals (logged (log_occur_error (pid (this st)) (host (this st))
                                           (port (this st)) error) (globals st)) st).
Proof. reflexivity. Qed.

(** A closure when no retry remains and [_socket] is undefined: the
    status is CLOSED and the call throws before it tells the
    subscriber. *)
Lemma _onClose_no_socket hadError st :
  _retry (this st) <= 0 ->
  _socket (this st) = None ->
  exists x,
    _onClose hadError st =
      (Throw x,
       {| this := with_status CLOSED (with_decodeBuff [] (this st));
          globals := logged (log_closed (pid (this st)) (host (this st))
                               (port (this st)) hadError (_retry (this st)))
                            (globals st);
          sockets := sockets st;
          timers := timers st;
          calls := calls st |}).
Proof.
  intros Hr Hs. unfold _onClose, bind, self, debug, assign, throw. cbn [fst snd].
  assert (Hr' : (0 <? _retry (this st)) = false) by (apply Z.ltb_ge; lia).
  rewrite Hr', Hs. eexists. reflexivity.
Qed.

(** The three cases of [_onClose], for proofs by cases. *)
Ltac onClose_cases st hadError :=
  let Hr := fresh "Hr" in
  let Hs := fresh "Hs" in
  let i := fresh "i" in
  let x := fresh "x" in
  let E := fresh "E" in
  destruct (Z_lt_le_dec 0 (_retry (this st))) as [Hr|Hr];
  [ rewrite (_onClose_retry hadError st Hr)
  | destruct (_socket (this st)) as [i|] eqn:Hs;
    [ rewrite (_onClose_exhausted hadError st i Hr Hs)
    | destruct (_onClose_no_socket hadError st Hr Hs) as [x E]; rewrite E; clear E ] ].

(** *** Retry timers *)

Lemma cancel_leaves_none_pending o (l : list Timer) :
  (forall i t, l !! i = Some t -> timer_state t = Pending -> o = Some i) ->
  forall i t, cancel o l !! i = Some t -> timer_state t <> Pending.
Proof.
  intros Hinv i t Hi Hp. unfold cancel in Hi.
  destruct o as [j|].
  - destruct (l !! j) as [tj|] eqn:Hj.
    + destruct (timer_state tj) eqn:Hs.
      * destruct (decide (i = j)) as [->|Hne].
        -- rewrite list_lookup_insert_eq in Hi by (by eapply lookup_lt_Some).
           by simplify_eq.
        -- rewrite list_lookup_insert_ne in Hi by done.
           specialize (Hinv i t Hi Hp). congruence.
      * specialize (Hinv i t Hi Hp). simplify_eq. congruence.
      * specialize (Hinv i t Hi Hp). simplify_eq. congruence.
    + specialize (Hinv i t Hi Hp). simplify_eq.
  - specialize (Hinv i t Hi Hp). done.
Qed.

Lemma timer_inv_close hadError st :
  timer_inv st -> timer_inv (snd (_onClose hadError st)).
Proof.
  intros [Hb Hinv]. unfold timer_inv.
  onClose_cases st hadError; cbn.
  - split; [done|]. intros i t Hi Hp.
    destruct (decide (i < length (timers st))%nat) as [Hlt|Hge].
    + rewrite lookup_app_l in Hi by (by rewrite length_cancel).
      exfalso. eapply cancel_leaves_none_pending; [|exact Hi|exact Hp].
      intros i' t' Hi' Hp'. by destruct (Hinv i' t' Hi' Hp').
    + apply lookup_lt_Some in Hi as Hlen.
      rewrite length_app, length_cancel in Hlen. cbn in Hlen.
      split; [f_equal; lia|done].
  - split; [done|]. intros i' t Hi Hp. destruct (Hinv i' t Hi Hp). lia.
  - split; [done|]. intros i' t Hi Hp. destruct (Hinv i' t Hi Hp). lia.
Qed.

Lemma timer_inv_step e st :
  timer_inv st -> enabled e st = true -> timer_inv (step e st).
Proof.
  intros Hinv He. unfold step.
  destruct e as [|data|error|hadError|id| |ctx| |s]; cbn [handle].
  - destruct Hinv as [Hb Hinv]. rewrite _onConnected_effect. split; cbn.
    + unfold RETRY_NUM. lia.
    + intros i t Hi Hp. destruct (Hinv i t Hi Hp). split; [done|]. by unfold RETRY_NUM.
  - destruct (_onData_frame data st) as (Hc & _ & Ht).
    apply control_inv in Hc as (Hr & Hid & _).
    unfold timer_inv. by rewrite Ht, Hr, Hid.
  - by rewrite _onError_effect.
  - by apply timer_inv_close.
  - destruct Hinv as [Hb Hinv]. cbn in He.
    destruct (timers st !! id) as [t|] eqn:Hid; [|done].
    apply bool_decide_eq_true in He.
    destruct (Hinv id t Hid He) as [Hcur Hpos].
    unfold_handlers. rewrite Hid. cbn. init_effect. split; cbn; [lia|].
    intros i t' Hi Hp.
    destruct (decide (i = id)) as [->|Hne].
    + rewrite list_lookup_insert_eq in Hi by (by eapply lookup_lt_Some).
      by simplify_eq.
    + rewrite list_lookup_insert_ne in Hi by done.
      destruct (Hinv i t' Hi Hp). congruence.
  - by apply timer_inv_close.
  - destruct (write_frame ctx st) as (Hc & _ & Ht & _).
    apply control_inv in Hc as (Hr & Hid & _).
    unfold bind, ret. destruct (write ctx st) as [r st1] eqn:E. cbn in *.
    unfold timer_inv. destruct r; cbn; by rewrite Ht, Hr, Hid.
  - destruct Hinv as [Hb Hinv]. unfold_handlers. cbn.
    case_bool_decide; [init_effect|]; (split; cbn; [unfold RETRY_NUM; lia|]);
      intros i t Hi Hp; destruct (Hinv i t Hi Hp); (split; [done|by unfold RETRY_NUM]).
  - done.
Qed.

(** *** Transport handles *)

Lemma release_leaves_none_open o (l : list Socket) :
  (forall i s, l !! i = Some s -> destroyed s = false -> o = Some i) ->
  forall i s, release o l !! i = Some s -> destroyed s = true.
Proof.
  intros Hinv i s Hi. apply not_false_is_true. intros Hd.
  unfold release in Hi. destruct o as [j|].
  - destruct (l !! j) as [sj|] eqn:Hj.
    + destruct (decide (i = j)) as [->|Hne].
      * rewrite list_lookup_insert_eq in Hi by (by eapply lookup_lt_Some).
        by simplify_eq.
      * rewrite list_lookup_insert_ne in Hi by done.
        specialize (Hinv i s Hi Hd). congruence.
    + specialize (Hinv i s Hi Hd). simplify_eq.
  - specialize (Hinv i s Hi Hd). done.
Qed.

Lemma socket_inv_init st :
  socket_inv st ->
  socket_inv (snd (_initSocket st)) /\
  forall i s, (i < length (sockets st))%nat ->
              sockets (snd (_initSocket st)) !! i = Some s -> destroyed s = true.
Proof.
  intros Hinv. init_effect. unfold socket_inv. cbn. split.
  - intros i s Hi Hopen.
    destruct (decide (i < length (sockets st))%nat) as [Hlt|Hge].
    + rewrite lookup_app_l in Hi by (by rewrite length_release).
      pose proof (release_leaves_none_open _ _ Hinv i s Hi). congruence.
    + apply lookup_lt_Some in Hi as Hlen.
      rewrite length_app, length_release in Hlen. cbn in Hlen.
      f_equal. lia.
  - intros i s Hlt Hi.
    rewrite lookup_app_l in Hi by (by rewrite length_release).
    exact (release_leaves_none_open _ _ Hinv i s Hi).
Qed.

Lemma socket_inv_close hadError st :
  socket_inv st -> socket_inv (snd (_onClose hadError st)).
Proof.
  intros Hinv. unfold socket_inv.
  onClose_cases st hadError; cbn; try exact Hinv.
  intros j s Hj Hd. rewrite <- Hs in Hj.
  pose proof (release_leaves_none_open _ _ Hinv j s Hj). congruence.
Qed.

Lemma socket_inv_same st st' :
  _socket (this st') = _socket (this st) ->
  destroyed <$> sockets st' = destroyed <$> sockets st ->
  socket_inv st -> socket_inv st'.
Proof.
  intros Hs Hd Hinv i s Hi Hopen. rewrite Hs.
  assert (Hf : (destroyed <$> sockets st) !! i = Some false).
  { rewrite <- Hd, list_lookup_fmap, Hi. cbn. by rewrite Hopen. }
  rewrite list_lookup_fmap in Hf.
  destruct (sockets st !! i) as [s0|] eqn:Hi0; [|done].
  cbn in Hf. eapply Hinv; [exact Hi0|congruence].
Qed.

Lemma socket_inv_step e st :
  socket_inv st -> socket_inv (step e st).
Proof.
  intros Hinv. unfold step.
  destruct e as [|data|error|hadError|id| |ctx| |s]; cbn [handle].
  - by rewrite _onConnected_effect.
  - destruct (_onData_frame data st) as (Hc & Hs & _).
    apply control_inv in Hc as (_ & _ & Hsock & _).
    eapply socket_inv_same; [exact Hsock|by rewrite Hs|done].
  - by rewrite _onError_effect.
  - by apply socket_inv_close.
  - unfold retry_callback, fire, bind, self, assign.
    destruct (timers st !! id); cbn;
      match goal with |- context [ _initSocket ?s0 ] =>
        apply (socket_inv_init s0); exact Hinv end.
  - by apply socket_inv_close.
  - destruct (write_frame ctx st) as (Hc & Hd & _).
    apply control_inv in Hc as (_ & _ & Hsock & _).
    unfold bind, ret. destruct (write ctx st) as [r st1] eqn:E. cbn in *.
    destruct r; cbn; by eapply socket_inv_same.
  - unfold resetRetry, bind, self, assign. cbn. case_bool_decide; [|done].
    match goal with |- context [ _initSocket ?s0 ] =>
      apply (socket_inv_init s0); exact Hinv end.
  - done.
Qed.

(** *** Invariants of the states a worker goes through *)

Lemma reachable_inv url g st :
  reachable url g st -> timer_inv st /\ socket_inv st.
Proof.
  induction 1 as [st E|st e Hr [IHt IHs] He].
  - apply from_Ok_state in E. cbn in E. subst st. split.
    + split; cbn; [unfold RETRY_NUM; lia|]. intros i t Hi. done.
    + intros i s Hi Hd. cbn in *. destruct i; [done|]. done.
  - split; [by apply timer_inv_step|by apply socket_inv_step].
Qed.

Lemma reachable_run url g es : forall st st',
  reachable url g st -> run es st = Some st' -> reachable url g st'.
Proof.
  induction es as [|e es IH]; intros st st' Hr Hrun; cbn in Hrun.
  - by simplify_eq.
  - destruct (enabled e st) eqn:He; [|done].
    eapply IH; [|exact Hrun]. by apply reachable_step.
Qed.

Lemma filter_none {A : Type} (P : A -> bool) (l : list A) :
  (forall i x, l !! i = Some x -> P x = false) -> List.filter P l = [].
Proof.
  induction l as [|a l IH]; intros Hall; [done|]. cbn.
  rewrite (Hall 0%nat a) by done.
  apply IH. intros i x Hi. by apply (Hall (S i) x).
Qed.

Lemma filter_at_most_one {A : Type} (P : A -> bool) (l : list A) : forall o,
  (forall i x, l !! i = Some x -> P x = true -> o = Some i) ->
  (length (List.filter P l) <= 1)%nat.
Proof.
  induction l as [|a l IH]; intros o Hone; cbn; [lia|].
  destruct (P a) eqn:Ha.
  - rewrite filter_none; [cbn; lia|].
    intros i x Hi. apply not_true_is_false. intros Hx.
    pose proof (Hone 0%nat a eq_refl Ha). pose proof (Hone (S i) x Hi Hx).
    congruence.
  - apply (IH (match o with Some (S k) => Some k | _ => None end)).
    intros i x Hi Hx. by rewrite (Hone (S i) x Hi Hx).
Qed.

Lemma timer_inv_pending st :
  timer_inv st -> (length (pending_timers st) <= 1)%nat.
Proof.
  intros [_ Hinv]. unfold pending_timers.
  apply (filter_at_most_one _ _ (_retryTimeoutId (this st))).
  intros i t Hi Hp. apply bool_decide_eq_true in Hp. by destruct (Hinv i t Hi Hp).
Qed.

Lemma socket_inv_open st :
  socket_inv st -> (length (open_sockets st) <= 1)%nat.
Proof.
  intros Hinv. unfold open_sockets.
  apply (filter_at_most_one _ _ (_socket (this st))).
  intros i s Hi Hp. apply negb_true_iff in Hp. by apply (Hinv i s).
Qed.

(** *** The state machine, event by event *)

Lemma step_retry e st :
  _retry (this (step e st)) =
    match e with
    | ev_retry_timeout _ => _retry (this st) - 1
    | ev_connect | call_resetRetry => RETRY_NUM
    | _ => _retry (this st)
    end.
Proof.
  unfold step. destruct e as [|data|error|hadError|id| |ctx| |s]; cbn [handle].
  - by rewrite _onConnected_effect.
  - destruct (_onData_frame data st) as (Hc & _).
    by apply control_inv in Hc as (Hr & _).
  - by rewrite _onError_effect.
  - by onClose_cases st hadError.
  - unfold retry_callback, fire, bind, self, assign.
    destruct (timers st !! id); cbn; by init_effect.
  - by onClose_cases st false.
  - destruct (write_frame ctx st) as (Hc & _).
    apply control_inv in Hc as (Hr & _).
    unfold bind, ret. by destruct (write ctx st) as [[] st1].
  - unfold resetRetry, bind, self, assign. cbn.
    case_bool_decide; [by init_effect|done].
  - done.
Qed.

Lemma step_status e st :
  _status (this (step e st)) =
    match e with
    | ev_connect => CONNECTED
    | ev_close _ | ev_heartbeat_timeout =>
        if 0 <? _retry (this st) then RETRY else CLOSED
    | _ => _status (this st)
    end.
Proof.
  unfold step. destruct e as [|data|error|hadError|id| |ctx| |s]; cbn [handle].
  - by rewrite _onConnected_effect.
  - destruct (_onData_frame data st) as (Hc & _).
    by apply control_inv in Hc as (_ & _ & _ & Hs & _).
  - by rewrite _onError_effect.
  - onClose_cases st hadError; cbn.
    + by rewrite (proj2 (Z.ltb_lt _ _) Hr).
    + by rewrite (proj2 (Z.ltb_ge _ _) Hr).
    + by rewrite (proj2 (Z.ltb_ge _ _) Hr).
  - unfold retry_callback, fire, bind, self, assign.
    destruct (timers st !! id); cbn; by init_effect.
  - onClose_cases st false; cbn.
    + by rewrite (proj2 (Z.ltb_lt _ _) Hr).
    + by rewrite (proj2 (Z.ltb_ge _ _) Hr).
    + by rewrite (proj2 (Z.ltb_ge _ _) Hr).
  - destruct (write_frame ctx st) as (Hc & _).
    apply control_inv in Hc as (_ & _ & _ & Hs & _).
    unfold bind, ret. by destruct (write ctx st) as [[] st1].
  - unfold resetRetry, bind, self, assign. cbn.
    case_bool_decide; [by init_effect|done].
  - done.
Qed.

(** *** The scenario of the failing transport *)

Lemma run_app es1 : forall es2 st st1,
  run es1 st = Some st1 -> run (es1 ++ es2) st = run es2 st1.
Proof.
  induction es1 as [|e es1 IH]; intros es2 st st1 Hrun; cbn in *.
  - by simplify_eq.
  - destruct (enabled e st); [|done]. by apply IH.
Qed.

Lemma cancel_fired t tm (l : list Timer) :
  l !! t = Some tm ->
  cancel (Some t) (<[t := {| delay := delay tm; timer_state := Fired |}]> l)
  = <[t := {| delay := delay tm; timer_state := Fired |}]> l.
Proof.
  intros Ht. unfold cancel.
  rewrite list_lookup_insert_eq by (by eapply lookup_lt_Some). done.
Qed.

(** The first failure of a new worker leaves it waiting for timer 0
    with the whole budget. *)
Lemma first_failure url g st0 obs error :
  from url g = (Ok tt, st0) ->
  exists st,
    run (call_subscribe obs :: connect_failure error) st0 = Some st /\
    awaiting_retry obs (info (this st0)) [] RETRY_NUM 0 st.
Proof.
  intros E. pose proof (from_Ok_accepted _ _ _ E) as Hc.
  apply from_Ok_state in E. cbn in E.
  eexists. split.
  - cbn [run connect_failure enabled]. unfold step. cbn [handle].
    rewrite _onError_effect. cbn [snd].
    rewrite _onClose_retry; [reflexivity|]. subst st0. by cbn.
  - subst st0. cbn in Hc. unfold awaiting_retry. cbn.
    repeat split; try done. repeat constructor.
Qed.

(** A retry that fails while another remains. *)
Lemma retry_round obs i0 cs r t st error :
  awaiting_retry obs i0 cs r t st -> 1 < r ->
  exists st',
    run (ev_retry_timeout t :: connect_failure error) st = Some st' /\
    awaiting_retry obs i0 cs (r - 1) (S t) st'.
Proof.
  intros (Hr & Hst & Hid & Hlen & Ht & Hdel & Hsock & Hc & Hsub & Hinfo & Hcalls) Hgt.
  eexists. split.
  - cbn [run connect_failure enabled]. rewrite Ht. cbn [timer_state retry_timer].
    rewrite bool_decide_eq_true_2 by done.
    unfold step at 3. cbn [handle]. unfold fire, retry_callback, bind, self, assign.
    rewrite Ht. cbn [fst snd].
    rewrite _initSocket_accepted by (by cbn).
    unfold step at 2. cbn [handle]. rewrite _onError_effect. cbn [snd].
    unfold step. cbn [handle].
    rewrite _onClose_retry by (cbn; lia). reflexivity.
  - unfold awaiting_retry. cbn. rewrite Hid.
    pose proof (cancel_fired t retry_timer _ Ht) as Hcf.
    cbn [delay retry_timer] in Hcf. rewrite Hcf.
    rewrite length_insert, Hlen.
    repeat split; try done.
    + by rewrite Hr.
    + rewrite length_app, length_insert, Hlen. cbn. lia.
    + apply list_lookup_middle. by rewrite length_insert.
    + apply Forall_app. split; [|by repeat constructor].
      apply Forall_insert; [done|]. by cbn.
Qed.

Lemma failed_retries_stay obs i0 cs error n : forall r t st,
  awaiting_retry obs i0 cs r t st -> Z.of_nat n < r ->
  exists st',
    run (failed_retries error t n) st = Some st' /\
    awaiting_retry obs i0 cs (r - Z.of_nat n) (t + n) st'.
Proof.
  induction n as [|n IH]; intros r t st Haw Hlt.
  - exists st. split; [done|]. by rewrite Z.sub_0_r, Nat.add_0_r.
  - destruct (retry_round obs i0 cs r t st error Haw) as (st1 & Hrun1 & Haw1); [lia|].
    destruct (IH (r - 1) (S t) st1 Haw1) as (st2 & Hrun2 & Haw2); [lia|].
    exists st2. split.
    + cbn [failed_retries].
      change (ev_retry_timeout t :: connect_failure error ++ failed_retries error (S t) n)
        with ((ev_retry_timeout t :: connect_failure error)
                ++ failed_retries error (S t) n).
      by rewrite (run_app _ _ _ _ Hrun1).
    + replace (r - Z.of_nat (S n)) with (r - 1 - Z.of_nat n) by lia.
      by replace (t + S n)%nat with (S t + n)%nat by lia.
Qed.

(** The retry that fails when no other remains. *)
Lemma last_round obs i0 cs t st error :
  awaiting_retry obs i0 cs 1 t st ->
  exists st',
    run (ev_retry_timeout t :: connect_failure error) st = Some st' /\
    _status (this st') = CLOSED /\
    _retry (this st') = 0 /\
    calls st' = cs ++ [(obs, onClose i0)] /\
    Forall (fun tm => delay tm = RETRY_TIME) (timers st').
Proof.
  intros (Hr & Hst & Hid & Hlen & Ht & Hdel & Hsock & Hc & Hsub & Hinfo & Hcalls).
  eexists. split.
  - cbn [run connect_failure enabled]. rewrite Ht. cbn [timer_state retry_timer].
    rewrite bool_decide_eq_true_2 by done.
    unfold step at 3. cbn [handle]. unfold fire, retry_callback, bind, self, assign.
    rewrite Ht. cbn [fst snd].
    rewrite _initSocket_accepted by (by cbn).
    unfold step at 2. cbn [handle]. rewrite _onError_effect. cbn [snd].
    unfold step. cbn [handle].
    erewrite _onClose_exhausted; [reflexivity|cbn; lia|by cbn].
  - cbn. rewrite Hr, Hsub, Hcalls. repeat split; try done.
    + unfold info in *. cbn. by rewrite Hinfo.
    + apply Forall_insert; [done|]. by cbn.
Qed.

Lemma onClose_received_nil obs st :
  calls st = [] -> onClose_received obs st = [].
Proof. unfold onClose_received. by intros ->. Qed.

(** Once a connect callback has run the worker has a heartbeat monitor,
    and no later event takes it away: a frame can only come from a
    connected socket, so the dispatch of a heartbeat frame finds it. *)
Lemma monitor_after_connect st :
  is_Some (_heartBeatTimer (this (step ev_connect st))).
Proof. unfold step. cbn [handle]. rewrite _onConnected_effect. by eexists. Qed.

Lemma dispatch_keeps_monitor data st :
  is_Some (_heartBeatTimer (this st)) ->
  is_Some (_heartBeatTimer (this (snd (_onSubscribeDecodeBuff data st)))).
Proof.
  intros [hb Hhb]. unfold_handlers. rewrite Hhb.
  destruct (isHeartBeat data); cbn; [by eexists|].
  destruct (decodeDubboResponse data); cbn; by eexists.
Qed.

Lemma deliver_keeps_monitor frames : forall st,
  is_Some (_heartBeatTimer (this st)) ->
  is_Some (_heartBeatTimer (this (snd (deliver frames st)))).
Proof.
  induction frames as [|f fs IH]; intros st Hm; [done|].
  cbn [deliver]. unfold bind.
  pose proof (dispatch_keeps_monitor f st Hm) as Hf.
  destruct (_onSubscribeDecodeBuff f st) as [[[]|x] st1]; cbn in *; [|done].
  by apply IH.
Qed.

Lemma step_keeps_monitor e st :
  is_Some (_heartBeatTimer (this st)) ->
  is_Some (_heartBeatTimer (this (step e st))).
Proof.
  intros Hm. destruct e as [|data|error|hadError|id| |ctx| |s].
  - apply monitor_after_connect.
  - unfold step. cbn [handle]. unfold _onData, bind, self, debug, assign. cbn.
    destruct (receive (_decodeBuff (this st)) data) as [frames rest].
    by apply deliver_keeps_monitor.
  - done.
  - unfold step. cbn [handle]. by rewrite _onClose_monitor.
  - unfold step. cbn [handle]. unfold_handlers.
    destruct (timers st !! id); cbn; by init_effect.
  - unfold step. cbn [handle]. by rewrite _onClose_monitor.
  - destruct Hm as [hb Hhb]. unfold step. cbn [handle]. unfold_handlers. cbn.
    rewrite Hhb. cbn.
    destruct (_socket (this st)) as [i|]; cbn; [|by eexists].
    destruct (encode _ _ _); cbn; [|by eexists].
    destruct (sockets st !! i); cbn; by eexists.
  - unfold step. cbn [handle]. unfold_handlers. cbn.
    case_bool_decide; [by init_effect|done].
  - done.
Qed.

(** *** The claims *)

(** C1 (as amended): a worker whose transport fails to connect on every
    attempt, each retry being started by the timer of [RETRY_TIME]
    milliseconds that the closure before it made, is in the RETRY state
    with [21 - n] retries left and no [onClose] sent after its [n]-th
    connect failure, for [n] from 1 to 20; after the 21st failure (the
    attempt of the constructor and the 20 retries) its status is CLOSED
    and the subscriber has received exactly one [onClose], carrying the
    worker's pid, host and port. *)
Theorem C1_closed_after_the_21st_failure url g st0 obs error :
  from url g = (Ok tt, st0) ->
  (forall n, (1 <= n <= 20)%nat ->
     exists st,
       run (call_subscribe obs :: connect_failures error n) st0 = Some st /\
       _status (this st) = RETRY /\
       _retry (this st) = 21 - Z.of_nat n /\
       onClose_received obs st = [] /\
       Forall (fun tm => delay tm = RETRY_TIME) (timers st)) /\
  exists st,
    run (call_subscribe obs :: connect_failures error 21) st0 = Some st /\
    _status (this st) = CLOSED /\
    onClose_received obs st = [info (this st0)] /\
    pending_timers st = [] /\
    Forall (fun tm => delay tm = RETRY_TIME) (timers st).
Proof.
  intros E.
  destruct (first_failure url g st0 obs error E) as (st1 & Hrun1 & Haw1).
  assert (Hreach1 : reachable url g st1).
  { eapply reachable_run; [by apply reachable_from|exact Hrun1]. }
  split.
  - intros n Hn. destruct n as [|n]; [lia|].
    destruct (failed_retries_stay obs (info (this st0)) [] error n RETRY_NUM 0 st1 Haw1)
      as (st & Hrun & Haw); [unfold RETRY_NUM; lia|].
    exists st. split.
    + cbn [connect_failures].
      change (call_subscribe obs :: connect_failure error ++ failed_retries error 0 n)
        with ((call_subscribe obs :: connect_failure error)
                ++ failed_retries error 0 n).
      by rewrite (run_app _ _ _ _ Hrun1).
    + destruct Haw as (Hr & Hst & _ & _ & _ & Hdel & _ & _ & _ & _ & Hcalls).
      repeat split; try done.
      * rewrite Hr. unfold RETRY_NUM. lia.
      * by apply onClose_received_nil.
  - destruct (failed_retries_stay obs (info (this st0)) [] error 19 RETRY_NUM 0 st1 Haw1)
      as (st2 & Hrun2 & Haw2); [unfold RETRY_NUM; lia|].
    change (RETRY_NUM - Z.of_nat 19) with 1 in Haw2.
    destruct (last_round obs (info (this st0)) [] (0 + 19) st2 error Haw2)
      as (st3 & Hrun3 & Hst & Hr & Hcalls & Hdel).
    assert (Hrun : run (call_subscribe obs :: connect_failures error 21) st0 = Some st3).
    { cbn [connect_failures].
      change (call_subscribe obs :: connect_failure error ++ failed_retries error 0 20)
        with ((call_subscribe obs :: connect_failure error)
                ++ failed_retries error 0 20).
      rewrite (run_app _ _ _ _ Hrun1).
      change (failed_retries error 0 20)
        with (failed_retries error 0 19
                ++ (ev_retry_timeout (0 + 19) :: connect_failure error)).
      by rewrite (run_app _ _ _ _ Hrun2). }
    exists st3. repeat split; try done.
    + unfold onClose_received. rewrite Hcalls. cbn.
      by rewrite bool_decide_eq_true_2.
    + apply filter_none. intros i t Hi.
      apply bool_decide_eq_false. intros Hp.
      assert (Hreach : reachable url g st3).
      { eapply reachable_run; [by apply reachable_from|exact Hrun]. }
      destruct (reachable_inv _ _ _ Hreach) as [[_ Hinv] _].
      destruct (Hinv i t Hi Hp). lia.
Qed.

(** C2: a frame handed to [_onSubscribeDecodeBuff] that is a heartbeat
    never reaches [onData]: no call is made on the subscriber and, the
    monitor being there, only its liveness is noted: the monitor of the
    worker is then the old one after [emit], with one more liveness note
    and the same write notes, and the retry count, the timer, the socket,
    the status, the subscriber, the identity and the buffer of the worker
    are as before.  Any other frame is decoded and, when
    [decodeDubboResponse] returns, its result is handed to the
    subscriber's [onData] and nothing of the worker changes. *)
Theorem C2_heartbeat_frames_never_reach_onData st data :
  let r := fst (_onSubscribeDecodeBuff data st) in
  let st' := snd (_onSubscribeDecodeBuff data st) in
  sockets st' = sockets st /\ timers st' = timers st /\
  if isHeartBeat data then
    calls st' = calls st /\
    onData_calls st' = onData_calls st /\
    match _heartBeatTimer (this st) with
    | Some hb =>
        r = Ok tt /\ this st' = with_heartBeatTimer (Some (emit hb)) (this st) /\
        _heartBeatTimer (this st') = Some (emit hb) /\
        liveness_notes (emit hb) = S (liveness_notes hb) /\
        write_notes (emit hb) = write_notes hb /\
        control (this st') = control (this st) /\
        info (this st') = info (this st) /\
        _decodeBuff (this st') = _decodeBuff (this st)
    | None =>
        (exists msg, r = Throw (TypeError msg)) /\ this st' = this st
    end
  else
    this st' = this st /\
    match decodeDubboResponse data with
    | Ok json =>
        r = Ok tt /\
        calls st' = calls st ++ [(_subscriber (this st), onData json)] /\
        onData_calls st' = onData_calls st ++ [json]
    | Throw x =>
        r = Throw x /\ calls st' = calls st
    end.
Proof.
  unfold_handlers. destruct (isHeartBeat data).
  - destruct (_heartBeatTimer (this st)) as [hb|]; cbn.
    + split_and!; done.
    + repeat split; try done. by eexists.
  - destruct (decodeDubboResponse data) as [json|x]; cbn; [|done].
    repeat split; try done.
    unfold onData_calls. cbn. by rewrite omap_app.
Qed.

Lemma resetRetry_effect st :
  let st' := snd (resetRetry st) in
  _retry (this st') = RETRY_NUM /\
  (length (sockets st') = S (length (sockets st)) <-> _status (this st) = CLOSED) /\
  if bool_decide (_status (this st) = CLOSED) then
    _socket (this st') = Some (length (sockets st)) /\
    sockets st' =
      release (_socket (this st)) (sockets st)
        ++ [match connect_throws (port (this st)) (host (this st)) with
            | None => connecting_socket (port (this st)) (host (this st))
            | Some _ => refused_socket
            end]
  else
    resetRetry st = (Ok tt, with_this (with_retry RETRY_NUM (this st)) st).
Proof.
  unfold resetRetry, bind, self, assign. cbn.
  case_bool_decide as Hst.
  - set (st1 := with_this _ st).
    destruct (connect_throws (port (this st)) (host (this st))) as [x|] eqn:Hc.
    + rewrite (_initSocket_refused st1 x) by done. cbn.
      repeat split; try done. by rewrite length_app, length_release, Nat.add_1_r.
    + rewrite (_initSocket_accepted st1) by done. cbn.
      repeat split; try done. by rewrite length_app, length_release, Nat.add_1_r.
  - cbn. repeat split; try done. lia.
Qed.

(** C3: [resetRetry] sets the retry count to [RETRY_NUM] in every
    state.  It starts a connect attempt (one more socket is made) if and
    only if the status is CLOSED: then the socket in [_socket] is
    destroyed and [_socket] is a new socket on which [connect] was
    called; in any other status the call changes the counter and
    nothing else. *)
Theorem C3_resetRetry st :
  let st' := snd (resetRetry st) in
  _retry (this st') = RETRY_NUM /\
  (length (sockets st') = S (length (sockets st)) <-> _status (this st) = CLOSED) /\
  if bool_decide (_status (this st) = CLOSED) then
    _socket (this st') = Some (length (sockets st)) /\
    sockets st' =
      release (_socket (this st)) (sockets st)
        ++ [match connect_throws (port (this st)) (host (this st)) with
            | None => connecting_socket (port (this st)) (host (this st))
            | Some _ => refused_socket
            end]
  else
    resetRetry st = (Ok tt, with_this (with_retry RETRY_NUM (this st)) st).
Proof. exact (resetRetry_effect st). Qed.

(** C4 (as amended): when [resetRetry] is called while the status is
    CLOSED, the status is still CLOSED while the connect attempt it
    starts is in flight; it becomes CONNECTED when the connect callback
    runs and RETRY when the socket closes.  No event brings a worker
    back to PADDING. *)
Theorem C4_reset_leaves_the_status_closed st :
  _status (this st) = CLOSED ->
  let st' := snd (resetRetry st) in
  _status (this st') = CLOSED /\
  _retry (this st') = RETRY_NUM /\
  _socket (this st') = Some (length (sockets st)) /\
  length (sockets st') = S (length (sockets st)) /\
  _status (this (step ev_connect st')) = CONNECTED /\
  (forall hadError, _status (this (step (ev_close hadError) st')) = RETRY) /\
  (forall e s, _status (this (step e s)) = PADDING -> _status (this s) = PADDING).
Proof.
  intros Hst. cbn zeta.
  pose proof (step_status call_resetRetry st) as Hs.
  pose proof (step_retry call_resetRetry st) as Hr.
  unfold step in Hs, Hr. cbn [handle] in Hs, Hr.
  destruct (resetRetry_effect st) as (_ & Hlen & Hsock).
  rewrite bool_decide_eq_true_2 in Hsock by done. destruct Hsock as [Hsock _].
  split_and!.
  - by rewrite Hs.
  - done.
  - done.
  - by apply Hlen.
  - by rewrite step_status.
  - intros hadError. rewrite step_status, Hr. done.
  - intros e s. rewrite step_status.
    destruct e; try done. all: by destruct (0 <? _retry (this s)).
Qed.

(** C5: in every state a worker goes through at most one retry timer is
    pending.  When [_onClose] makes a new timer, every timer made
    before is no longer pending and the new one, of [RETRY_TIME]
    milliseconds, is the only pending one. *)
Theorem C5_at_most_one_pending_retry_timer url g st :
  reachable url g st ->
  (length (pending_timers st) <= 1)%nat /\
  forall hadError,
    let st' := snd (_onClose hadError st) in
    (length (pending_timers st') <= 1)%nat /\
    if 0 <? _retry (this st) then
      pending_timers st' = [retry_timer] /\
      length (timers st') = S (length (timers st)) /\
      forall i t, (i < length (timers st))%nat ->
                  timers st' !! i = Some t -> timer_state t <> Pending
    else timers st' = timers st.
Proof.
  intros Hreach. destruct (reachable_inv _ _ _ Hreach) as [Ht _].
  split; [by apply timer_inv_pending|].
  intros hadError. cbn zeta. split.
  - apply timer_inv_pending. by apply timer_inv_close.
  - destruct Ht as [_ Hinv].
    assert (Hnone : forall i t,
              cancel (_retryTimeoutId (this st)) (timers st) !! i = Some t ->
              timer_state t <> Pending).
    { apply cancel_leaves_none_pending.
      intros i t Hi Hp. by destruct (Hinv i t Hi Hp). }
    onClose_cases st hadError; cbn.
    + rewrite (proj2 (Z.ltb_lt _ _) Hr). repeat split.
      * unfold pending_timers. cbn. rewrite List.filter_app.
        rewrite filter_none; [done|].
        intros i t Hi. apply bool_decide_eq_false. by eapply Hnone.
      * by rewrite length_app, length_cancel, Nat.add_1_r.
      * intros i t Hlt Hi.
        rewrite lookup_app_l in Hi by (by rewrite length_cancel).
        by eapply Hnone.
    + by rewrite (proj2 (Z.ltb_ge _ _) Hr).
    + by rewrite (proj2 (Z.ltb_ge _ _) Hr).
Qed.

(** C6: in every state a worker goes through the retry count is between
    0 and [RETRY_NUM]; the firing of a retry timer takes exactly 1 from
    it, the connect callback and [resetRetry] set it to [RETRY_NUM], and
    every other event leaves it as it is; it is not negative
    afterwards. *)
Theorem C6_retry_count url g st :
  reachable url g st ->
  0 <= _retry (this st) <= RETRY_NUM /\
  forall e, enabled e st = true ->
    _retry (this (step e st)) =
      match e with
      | ev_retry_timeout _ => _retry (this st) - 1
      | ev_connect | call_resetRetry => RETRY_NUM
      | _ => _retry (this st)
      end /\
    0 <= _retry (this (step e st)).
Proof.
  intros Hreach. split.
  - by destruct (reachable_inv _ _ _ Hreach) as [[Hb _] _].
  - intros e He. split; [apply step_retry|].
    assert (Hreach' : reachable url g (step e st)) by (by apply reachable_step).
    destruct (reachable_inv _ _ _ Hreach') as [[Hb _] _]. lia.
Qed.

(** C7: [_onError] returns having added its message to the log and
    nothing else: the worker (status, retry count, retry timer, frame
    buffer, subscriber), the timers, the sockets, the calls made on the
    subscriber and the statistics are as before. *)
Theorem C7_onError_only_logs st error :
  let st' := snd (_onError error st) in
  fst (_onError error st) = Ok tt /\
  this st' = this st /\
  timers st' = timers st /\
  sockets st' = sockets st /\
  calls st' = calls st /\
  statistics (globals st') = statistics (globals st) /\
  pid_counter (globals st') = pid_counter (globals st) /\
  log (globals st') =
    log (globals st)
      ++ [log_occur_error (pid (this st)) (host (this st)) (port (this st)) error].
Proof. by rewrite _onError_effect. Qed.

(** [from] cannot tell an empty port from the port ["0"], which
    [Number] both makes 0: whatever the transport does on port 0, it does
    for both endpoints. *)
Lemma from_empty_port_as_port_0 g :
  StringToNumber "" = StringToNumber "0" ->
  from "127.0.0.1:" g = from "127.0.0.1:0" g.
Proof. intros E. unfold from. cbn. unfold Number. by rewrite E. Qed.

(** C8 (as amended): [from] checks nothing itself.  It takes the text
    before the first colon as the host and [Number] of the text after
    it as the port, whatever number that is ([NaN] when there is no such
    text), and fails exactly when the transport's [connect] throws on
    that port and host, with what [connect] threw.  Otherwise it returns
    a worker with the next pid, in the PADDING state with [RETRY_NUM]
    retries, whose only socket is connecting to that port and host. *)
Theorem C8_from_fails_only_as_connect_throws url g :
  let parts := JS.split ":" url in
  let h := hd "" parts in
  let p := Number (parts !! 1%nat) in
  match connect_throws p h with
  | Some x => fst (from url g) = Throw x
  | None =>
      fst (from url g) = Ok tt /\
      this (snd (from url g)) =
        {| pid := S (pid_counter g); host := h; port := p;
           _retry := RETRY_NUM;
           _retryTimeoutId := None;
           _heartBeatTimer := None;
           _socket := Some 0%nat;
           _status := PADDING;
           _decodeBuff := [];
           _subscriber := noop_subscriber |} /\
      sockets (snd (from url g)) = [connecting_socket p h]
  end.
Proof.
  cbn zeta. unfold from, new_SocketWorker.
  match goal with |- context [ _initSocket ?s ] => set (s0 := s) end.
  destruct (connect_throws _ _) as [x|] eqn:Hc.
  - by rewrite (_initSocket_refused s0 x Hc).
  - by rewrite (_initSocket_accepted s0 Hc).
Qed.

(** C9: in every state a worker goes through at most one socket has not
    been destroyed.  [_initSocket], which every connect attempt goes
    through, leaves every socket made before destroyed and makes
    exactly one new socket, the one [_socket] then refers to. *)
Theorem C9_at_most_one_open_socket url g st :
  reachable url g st ->
  (length (open_sockets st) <= 1)%nat /\
  let st' := snd (_initSocket st) in
  (forall i s, (i < length (sockets st))%nat ->
               sockets st' !! i = Some s -> destroyed s = true) /\
  length (sockets st') = S (length (sockets st)) /\
  _socket (this st') = Some (length (sockets st)) /\
  (length (open_sockets st') <= 1)%nat.
Proof.
  intros Hreach. destruct (reachable_inv _ _ _ Hreach) as [_ Hs].
  split; [by apply socket_inv_open|]. cbn zeta.
  destruct (socket_inv_init st Hs) as [Hs' Hold].
  repeat split; [exact Hold| | |by apply socket_inv_open].
  - init_effect. cbn. by rewrite length_app, length_release, Nat.add_1_r.
  - by init_effect.
Qed.

(** C10: for a worker made by [from] to which no connect callback was
    delivered, [write] throws a [TypeError] on the heartbeat monitor,
    which is still undefined; the sockets are as before (nothing was
    written), and so are the worker, the timers and the calls made on
    the subscriber. *)
Theorem C10_write_before_connected_throws url g st0 es st ctx :
  from url g = (Ok tt, st0) ->
  run es st0 = Some st ->
  never_connected es = true ->
  let st' := snd (write ctx st) in
  (exists msg, fst (write ctx st) = Throw (TypeError msg)) /\
  sockets st' = sockets st /\
  this st' = this st /\
  timers st' = timers st /\
  calls st' = calls st.
Proof.
  intros E Hrun Hes.
  assert (Hn : _heartBeatTimer (this st) = None).
  { eapply run_without_monitor; [|exact Hrun|exact Hes].
    apply from_Ok_state in E. by subst st0. }
  unfold_handlers. cbn. rewrite Hn. cbn.
  repeat split; try done. by eexists.
Qed.

(** ** Further properties of the handlers *)

Lemma with_heartBeatTimer_same w :
  with_heartBeatTimer (_heartBeatTimer w) w = w.
Proof. by destruct w. Qed.

Lemma logged_nothing (g : Globals) :
  {| pid_counter := pid_counter g; statistics := statistics g; log := log g ++ [] |} = g.
Proof. destruct g. cbn. by rewrite app_nil_r. Qed.

(** The dispatch of a frame changes the monitor, the log and the calls,
    and every call it makes is an [onData] on the subscriber. *)
Lemma dispatch_shape data st :
  exists hb lg new,
    snd (_onSubscribeDecodeBuff data st) =
      {| this := with_heartBeatTimer hb (this st);
         globals := {| pid_counter := pid_counter (globals st);
                       statistics := statistics (globals st);
                       log := log (globals st) ++ lg |};
         sockets := sockets st;
         timers := timers st;
         calls := calls st ++ new |} /\
    Forall (fun c => exists r, c = (_subscriber (this st), onData r)) new.
Proof.
  unfold_handlers. destruct (isHeartBeat data).
  - destruct (_heartBeatTimer (this st)) as [hb|] eqn:Hhb; cbn.
    + exists (Some (emit hb)), [log_heartbeat (pid (this st))], [].
      split; [by rewrite app_nil_r|constructor].
    + exists None, [log_heartbeat (pid (this st))], [].
      split; [|constructor].
      rewrite app_nil_r, <- Hhb, with_heartBeatTimer_same. done.
  - destruct (decodeDubboResponse data) as [json|x]; cbn.
    + exists (_heartBeatTimer (this st)), [log_result (pid (this st)) json],
        [(_subscriber (this st), onData json)].
      split; [by rewrite with_heartBeatTimer_same|].
      repeat constructor. by eexists.
    + exists (_heartBeatTimer (this st)), [], [].
      split; [|constructor].
      rewrite with_heartBeatTimer_same, logged_nothing, app_nil_r. by destruct st.
Qed.

Lemma deliver_shape frames : forall st,
  exists hb lg new,
    snd (deliver frames st) =
      {| this := with_heartBeatTimer hb (this st);
         globals := {| pid_counter := pid_counter (globals st);
                       statistics := statistics (globals st);
                       log := log (globals st) ++ lg |};
         sockets := sockets st;
         timers := timers st;
         calls := calls st ++ new |} /\
    Forall (fun c => exists r, c = (_subscriber (this st), onData r)) new.
Proof.
  induction frames as [|f fs IH]; intros st.
  - exists (_heartBeatTimer (this st)), [], []. split; [|constructor]. cbn.
    rewrite with_heartBeatTimer_same, logged_nothing, app_nil_r. by destruct st.
  - cbn [deliver]. unfold bind.
    destruct (dispatch_shape f st) as (hb1 & lg1 & new1 & E1 & F1).
    destruct (_onSubscribeDecodeBuff f st) as [[[]|x] st1]; cbn in E1.
    + destruct (IH st1) as (hb2 & lg2 & new2 & E2 & F2).
      rewrite E2, E1. cbn.
      exists hb2, (lg1 ++ lg2), (new1 ++ new2).
      split; [by rewrite !app_assoc|].
      apply Forall_app. split; [done|]. by rewrite E1 in F2.
    + cbn. exists hb1, lg1, new1. done.
Qed.

(** [write] changes the monitor, the statistics, the log and the
    sockets. *)
Lemma write_shape ctx st :
  exists hb ss,
    snd (write ctx st) =
      {| this := with_heartBeatTimer hb (this st);
         globals :=
           {| pid_counter := pid_counter (globals st);
              statistics :=
                <[stat_key (pid (this st)) :=
                    increment (statistics (globals st) !! stat_key (pid (this st)))]>
                  (statistics (globals st));
              log := log (globals st) ++ [log_invoked (pid (this st)) (requestId ctx)] |};
         sockets := ss;
         timers := timers st;
         calls := calls st |}.
Proof.
  unfold_handlers. cbn.
  destruct (_heartBeatTimer (this st)) as [hb|] eqn:Hhb; cbn.
  - destruct (_socket (this st)) as [i|]; cbn; [|by eexists _, _].
    destruct (encode _ _ _); cbn; [|by eexists _, _].
    destruct (sockets st !! i); cbn; by eexists _, _.
  - exists None, (sockets st). by rewrite <- Hhb, with_heartBeatTimer_same.
Qed.

Lemma follows_refl_calls st st' :
  info (this st') = info (this st) ->
  pid_counter (globals st') = pid_counter (globals st) ->
  calls st' = calls st ->
  follows st st'.
Proof.
  intros Hi Hp Hc. split; [done|]. split; [done|].
  exists []. split; [by rewrite app_nil_r|constructor].
Qed.

Lemma step_follows e st : follows st (step e st).
Proof.
  unfold step. destruct e as [|data|error|hadError|id| |ctx| |s]; cbn [handle].
  - rewrite _onConnected_effect. split; [done|]. split; [done|].
    eexists. split; [reflexivity|]. repeat constructor. cbn. by intros i [= <-].
  - unfold _onData, bind, self, debug, assign. cbn.
    destruct (receive (_decodeBuff (this st)) data) as [frames rest].
    match goal with |- context [ deliver frames ?s ] =>
      destruct (deliver_shape frames s) as (hb & lg & new & E & F); rewrite E end.
    split; [done|]. split; [done|]. exists new. split; [done|].
    eapply Forall_impl; [exact F|]. intros c [r ->]. cbn. split; [done|]. done.
  - rewrite _onError_effect. by apply follows_refl_calls.
  - onClose_cases st hadError; try (by apply follows_refl_calls).
    split; [done|]. split; [done|]. eexists. split; [reflexivity|].
    repeat constructor. cbn. by intros j [= <-].
  - unfold retry_callback, fire, bind, self, assign.
    destruct (timers st !! id); cbn; init_effect; by apply follows_refl_calls.
  - onClose_cases st false; try (by apply follows_refl_calls).
    split; [done|]. split; [done|]. eexists. split; [reflexivity|].
    repeat constructor. cbn. by intros j [= <-].
  - destruct (write_shape ctx st) as (hb & ss & E).
    unfold bind, ret. destruct (write ctx st) as [[c|x] st1]; cbn in *;
      subst st1; by apply follows_refl_calls.
  - unfold resetRetry, bind, self, assign. cbn.
    case_bool_decide; [init_effect|]; by apply follows_refl_calls.
  - by apply follows_refl_calls.
Qed.

Lemma step_socket_present e st :
  is_Some (_socket (this st)) -> is_Some (_socket (this (step e st))).
Proof.
  intros Hs. unfold step.
  destruct e as [|data|error|hadError|id| |ctx| |s]; cbn [handle].
  - by rewrite _onConnected_effect.
  - destruct (_onData_frame data st) as (Hc & _).
    apply control_inv in Hc as (_ & _ & -> & _). done.
  - by rewrite _onError_effect.
  - by onClose_cases st hadError.
  - unfold retry_callback, fire, bind, self, assign.
    destruct (timers st !! id); cbn; init_effect; by eexists.
  - by onClose_cases st false.
  - destruct (write_frame ctx st) as (Hc & _).
    apply control_inv in Hc as (_ & _ & Hsock & _).
    unfold bind, ret. destruct (write ctx st) as [[] st1]; cbn in *; by rewrite Hsock.
  - unfold resetRetry, bind, self, assign. cbn.
    case_bool_decide; [init_effect; by eexists|done].
  - done.
Qed.

Lemma reachable_socket_present url g st :
  reachable url g st -> is_Some (_socket (this st)).
Proof.
  induction 1 as [st E|st e Hr IH He].
  - apply from_Ok_state in E. subst st. by eexists.
  - by apply step_socket_present.
Qed.

Lemma Forall_cancel (P : Timer -> Prop) o (l : list Timer) :
  (forall t, P t -> P {| delay := delay t; timer_state := Cleared |}) ->
  Forall P l -> Forall P (cancel o l).
Proof.
  intros Hp Hl. unfold cancel. destruct o as [i|]; [|done].
  destruct (l !! i) as [t|] eqn:Hi; [|done].
  destruct (timer_state t); try done.
  apply Forall_insert; [done|]. apply Hp. by eapply Forall_lookup_1.
Qed.

Lemma step_delays e st :
  Forall (fun t => delay t = RETRY_TIME) (timers st) ->
  Forall (fun t => delay t = RETRY_TIME) (timers (step e st)).
Proof.
  intros Hd.
  assert (Hclose : forall hadError,
    Forall (fun t => delay t = RETRY_TIME) (timers (snd (_onClose hadError st)))).
  { intros hadError. onClose_cases st hadError; cbn; try done.
    apply Forall_app. split; [|by repeat constructor].
    by apply Forall_cancel. }
  unfold step. destruct e as [|data|error|hadError|id| |ctx| |s]; cbn [handle].
  - by rewrite _onConnected_effect.
  - destruct (_onData_frame data st) as (_ & _ & ->). done.
  - by rewrite _onError_effect.
  - apply Hclose.
  - unfold retry_callback, fire, bind, self, assign.
    destruct (timers st !! id) as [t|] eqn:Hid; cbn; init_effect; cbn; [|done].
    apply Forall_insert; [done|]. cbn. by eapply (Forall_lookup_1 _ _ _ _ Hd).
  - apply Hclose.
  - destruct (write_frame ctx st) as (_ & _ & Ht & _).
    unfold bind, ret. destruct (write ctx st) as [[] st1]; cbn in *; by rewrite Ht.
  - unfold resetRetry, bind, self, assign. cbn.
    case_bool_decide; [by init_effect|done].
  - done.
Qed.

(** ** Further properties *)

(** X1: the status after each event, and what [status], [isAvaliable]
    and [isRetry] then say: the connect callback makes the worker
    CONNECTED, a closure (of the socket or by the heartbeat's timeout)
    makes it RETRY while a retry remains and CLOSED otherwise, and no
    other event, a retry timer, [resetRetry] and [write] included, changes
    the status. *)
Theorem X1_status_after_each_event e st :
  let w := this (step e st) in
  status w =
    match e with
    | ev_connect => CONNECTED
    | ev_close _ | ev_heartbeat_timeout =>
        if 0 <? _retry (this st) then RETRY else CLOSED
    | _ => status (this st)
    end /\
  isAvaliable w =
    match e with
    | ev_connect => true
    | ev_close _ | ev_heartbeat_timeout => false
    | _ => isAvaliable (this st)
    end /\
  isRetry w =
    match e with
    | ev_connect => false
    | ev_close _ | ev_heartbeat_timeout => 0 <? _retry (this st)
    | _ => isRetry (this st)
    end.
Proof.
  cbn zeta. unfold status, isAvaliable, isRetry. rewrite step_status.
  destruct e; try done; by destruct (0 <? _retry (this st)).
Qed.

(** X2: a closure is never dropped.  In every state a worker goes
    through, a ['close'] event empties the frame buffer and leaves the
    worker not available; while a retry remains it leaves exactly one
    pending timer, of [RETRY_TIME] milliseconds, and tells the subscriber
    nothing; when none remains it returns having told the subscriber
    [onClose] once, with no timer pending and no socket left open. *)
Theorem X2_closure_retries_or_notifies url g st hadError :
  reachable url g st ->
  let st' := step (ev_close hadError) st in
  _decodeBuff (this st') = [] /\
  isAvaliable (this st') = false /\
  if 0 <? _retry (this st) then
    isRetry (this st') = true /\
    pending_timers st' = [retry_timer] /\
    calls st' = calls st /\
    sockets st' = sockets st
  else
    fst (handle (ev_close hadError) st) = Ok tt /\
    _status (this st') = CLOSED /\
    calls st' = calls st ++ [(_subscriber (this st), onClose (info (this st)))] /\
    pending_timers st' = [] /\
    open_sockets st' = [].
Proof.
  intros Hreach. cbn zeta.
  destruct (reachable_inv _ _ _ Hreach) as [[_ Ht] Hs].
  destruct (reachable_socket_present _ _ _ Hreach) as [i Hi].
  unfold step. cbn [handle].
  destruct (Z_lt_le_dec 0 (_retry (this st))) as [Hr|Hr].
  - rewrite (_onClose_retry hadError st Hr). cbn.
    rewrite (proj2 (Z.ltb_lt _ _) Hr). split_and!; try done.
    unfold pending_timers. cbn. rewrite List.filter_app.
    rewrite filter_none; [done|].
    intros j t Hj. apply bool_decide_eq_false.
    eapply cancel_leaves_none_pending; [|exact Hj].
    intros j' t' Hj' Hp. by destruct (Ht j' t' Hj' Hp).
  - rewrite (_onClose_exhausted hadError st i Hr Hi). cbn.
    rewrite (proj2 (Z.ltb_ge _ _) Hr). split_and!; try done.
    + apply filter_none. intros j t Hj. apply bool_decide_eq_false. intros Hp.
      destruct (Ht j t Hj Hp). lia.
    + apply filter_none. intros j s Hj. apply negb_false_iff.
      rewrite <- Hi in Hj. by apply (release_leaves_none_open _ _ Hs j s).
Qed.

(** X3: a closure that follows a connect callback finds the whole retry
    budget, however few retries were left before the connection: the
    worker is in the RETRY state with [RETRY_NUM] retries, the newest
    timer is its pending retry timer, and the only call made is the
    [onConnect]. *)
Theorem X3_closure_after_connect_has_the_whole_budget st hadError :
  let st' := step (ev_close hadError) (step ev_connect st) in
  _status (this st') = RETRY /\
  _retry (this st') = RETRY_NUM /\
  _retryTimeoutId (this st') = Some (length (timers st)) /\
  timers st' !! length (timers st) = Some retry_timer /\
  calls st' = calls st ++ [(_subscriber (this st), onConnect (info (this st)))].
Proof.
  cbn zeta. unfold step. cbn [handle]. rewrite _onConnected_effect. cbn [snd].
  rewrite _onClose_retry by (by cbn). cbn. split_and!; try done.
  apply list_lookup_middle. by rewrite length_cancel.
Qed.

(** X4: connect attempts are started by the firing of a retry timer and
    by [resetRetry] on a CLOSED worker, one socket each, and by nothing
    else: no other event, and no [resetRetry] in another status, makes a
    socket. *)
Theorem X4_what_starts_a_connect_attempt e st :
  length (sockets (step e st)) =
    (length (sockets st) +
     match e with
     | ev_retry_timeout _ => 1
     | call_resetRetry => if bool_decide (_status (this st) = CLOSED) then 1 else 0
     | _ => 0
     end)%nat.
Proof.
  unfold step. destruct e as [|data|error|hadError|id| |ctx| |s]; cbn [handle].
  - rewrite _onConnected_effect. cbn. lia.
  - destruct (_onData_frame data st) as (_ & -> & _). lia.
  - rewrite _onError_effect. cbn. lia.
  - onClose_cases st hadError; cbn; rewrite ?length_release; lia.
  - unfold retry_callback, fire, bind, self, assign.
    destruct (timers st !! id); cbn; init_effect; cbn;
      by rewrite length_app, length_release.
  - onClose_cases st false; cbn; rewrite ?length_release; lia.
  - destruct (write_frame ctx st) as (_ & Hd & _).
    apply (f_equal length) in Hd. rewrite !length_fmap in Hd.
    unfold bind, ret. destruct (write ctx st) as [[] st1]; cbn in *; lia.
  - unfold resetRetry, bind, self, assign. cbn.
    case_bool_decide; [init_effect; cbn; by rewrite length_app, length_release|cbn; lia].
  - cbn. lia.
Qed.

(** X5: calls on subscribers are only ever added, and an event that
    follows [subscribe(s)] makes its calls on [s]: whatever the event, the
    calls after it are the calls before the [subscribe] followed by calls
    on [s] alone. *)
Theorem X5_subscribe_redirects_the_calls s e st :
  exists new,
    calls (step e (step (call_subscribe s) st)) = calls st ++ new /\
    Forall (fun c => fst c = s) new.
Proof.
  destruct (step_follows e (step (call_subscribe s) st)) as (_ & _ & new & E & F).
  exists new. split; [exact E|].
  eapply Forall_impl; [exact F|]. by intros c [Hc _].
Qed.

Lemma reachable_identity url g st :
  reachable url g st ->
  let i0 := socket_info (S (pid_counter g)) (hd "" (JS.split ":" url))
                        (Number (JS.split ":" url !! 1%nat)) in
  info (this st) = i0 /\
  pid_counter (globals st) = S (pid_counter g) /\
  Forall (fun c => forall i, notified (snd c) = Some i -> i = i0) (calls st).
Proof.
  cbn zeta. induction 1 as [st E|st e Hr (Hi & Hp & Hc) He].
  - apply from_Ok_state in E. subst st. cbn. split_and!; try done.
  - destruct (step_follows e st) as (Hi' & Hp' & new & E & F).
    split_and!.
    + by rewrite Hi'.
    + by rewrite Hp'.
    + rewrite E. apply Forall_app. split; [done|].
      eapply Forall_impl; [exact F|]. intros c [_ Hn] i Hsome.
      rewrite <- Hi. by apply Hn.
Qed.

(** X6: the pid, host and port of a worker never change: in every state
    a worker made by [from] goes through they are the value the module's
    counter had at construction plus one, the text before the first colon
    of the endpoint and [Number] of the text after it, and every
    [onConnect] and [onClose] made so far carries them. *)
Theorem X6_notifications_carry_the_identity url g st :
  reachable url g st ->
  let i0 := socket_info (S (pid_counter g)) (hd "" (JS.split ":" url))
                        (Number (JS.split ":" url !! 1%nat)) in
  info (this st) = i0 /\
  Forall (fun c => forall i, notified (snd c) = Some i -> i = i0) (calls st).
Proof.
  intros Hreach. destruct (reachable_identity url g st Hreach) as (Hi & _ & Hc).
  by split.
Qed.

(** X7: every timer a worker makes has the delay [RETRY_TIME]: the
    delay between a closure and the retry does not grow with the number
    of failures. *)
Theorem X7_every_retry_timer_has_the_fixed_delay url g st :
  reachable url g st ->
  Forall (fun t => delay t = RETRY_TIME) (timers st).
Proof.
  induction 1 as [st E|st e Hr IH He].
  - apply from_Ok_state in E. subst st. constructor.
  - by apply step_delays.
Qed.

(** X8: on a worker that has a heartbeat monitor and whose socket is not
    destroyed, [write] returns; the bytes it hands to that socket are the
    encoding of the request with the worker's pid on the context, whatever
    pid the context had; the monitor notes the write; no other socket, no
    timer and no subscriber is touched. *)
Theorem X8_write_sends_the_stamped_request st ctx hb i s bytes :
  _heartBeatTimer (this st) = Some hb ->
  _socket (this st) = Some i ->
  sockets st !! i = Some s ->
  destroyed s = false ->
  encode (requestId ctx) (Some (pid (this st))) (request ctx) = Ok bytes ->
  let st' := snd (write ctx st) in
  fst (write ctx st) =
    Ok {| requestId := requestId ctx; ctx_pid := Some (pid (this st));
          request := request ctx |} /\
  written <$> sockets st' !! i = Some (written s ++ [bytes]) /\
  (forall j, j <> i -> sockets st' !! j = sockets st !! j) /\
  _heartBeatTimer (this st') = Some (setWriteTimestamp hb) /\
  timers st' = timers st /\
  calls st' = calls st.
Proof.
  intros Hhb Hsock Hi Hd He. unfold_handlers. cbn.
  rewrite Hhb. cbn. rewrite Hsock, He. cbn. rewrite Hi, Hd. cbn.
  split_and!; try done.
  - rewrite list_lookup_insert_eq by (by eapply lookup_lt_Some). done.
  - intros j Hj. by rewrite list_lookup_insert_ne.
Qed.

Lemma run_app_inv es1 : forall es2 st st',
  run (es1 ++ es2) st = Some st' ->
  exists st1, run es1 st = Some st1 /\ run es2 st1 = Some st'.
Proof.
  induction es1 as [|e es1 IH]; intros es2 st st' Hrun; cbn in *.
  - by exists st.
  - destruct (enabled e st); [|done]. by apply IH.
Qed.

Lemma run_keeps_monitor es : forall st st',
  is_Some (_heartBeatTimer (this st)) ->
  run es st = Some st' ->
  is_Some (_heartBeatTimer (this st')).
Proof.
  induction es as [|e es IH]; intros st st' Hm Hrun; cbn in Hrun.
  - by simplify_eq.
  - destruct (enabled e st); [|done].
    eapply IH; [|exact Hrun]. by apply step_keeps_monitor.
Qed.

(** X9: [write] has no guard on the status.  Once a connect callback has
    run, whatever came after it (closures, failed retries, the CLOSED
    state), [write] returns the context with the worker's pid whenever the
    encoder returns: it never reports that the worker is not
    connected. *)
Theorem X9_write_has_no_guard_on_the_status url g st0 es1 es2 st ctx bytes :
  from url g = (Ok tt, st0) ->
  run (es1 ++ ev_connect :: es2) st0 = Some st ->
  encode (requestId ctx) (Some (pid (this st))) (request ctx) = Ok bytes ->
  fst (write ctx st) =
    Ok {| requestId := requestId ctx; ctx_pid := Some (pid (this st));
          request := request ctx |}.
Proof.
  intros E Hrun He.
  assert (Hreach : reachable url g st).
  { eapply reachable_run; [by apply reachable_from|exact Hrun]. }
  destruct (reachable_socket_present _ _ _ Hreach) as [i Hi].
  apply run_app_inv in Hrun as (st1 & _ & Hrun). cbn [run] in Hrun.
  destruct (enabled ev_connect st1); [|done].
  destruct (run_keeps_monitor _ _ _ (monitor_after_connect st1) Hrun) as [hb Hhb].
  unfold_handlers. cbn. rewrite Hhb. cbn. rewrite Hi, He. cbn.
  by destruct (sockets st !! i).
Qed.

Lemma increment_of_Z n :
  increment (Some (JS.of_Z n)) = JS.of_Z (n + 1).
Proof.
  unfold increment, JS.of_Z. f_equal.
  unfold Qplus, inject_Z. cbn [Qnum Qden]. rewrite !Z.mul_1_r.
  apply Qcanon.Qred_identity. cbn [Qnum Qden]. apply Z.gcd_1_r.
Qed.

Lemma step_statistics e st :
  statistics (globals (step e st)) =
    match e with
    | call_write _ =>
        <[stat_key (pid (this st)) :=
            increment (statistics (globals st) !! stat_key (pid (this st)))]>
          (statistics (globals st))
    | _ => statistics (globals st)
    end.
Proof.
  unfold step. destruct e as [|data|error|hadError|id| |ctx| |s]; cbn [handle].
  - by rewrite _onConnected_effect.
  - unfold _onData, bind, self, debug, assign. cbn.
    destruct (receive (_decodeBuff (this st)) data) as [frames rest].
    match goal with |- context [ deliver frames ?s ] =>
      destruct (deliver_shape frames s) as (hb & lg & new & E & F); rewrite E end.
    done.
  - by rewrite _onError_effect.
  - by onClose_cases st hadError.
  - unfold retry_callback, fire, bind, self, assign.
    destruct (timers st !! id); cbn; by init_effect.
  - by onClose_cases st false.
  - destruct (write_shape ctx st) as (hb & ss & E).
    unfold bind, ret. destruct (write ctx st) as [[c|x] st1]; cbn in *; by subst st1.
  - unfold resetRetry, bind, self, assign. cbn.
    case_bool_decide; [by init_effect|done].
  - done.
Qed.

Lemma step_pid e st : pid (this (step e st)) = pid (this st).
Proof.
  destruct (step_follows e st) as (Hi & _). unfold info in Hi. by injection Hi.
Qed.

Lemma run_statistics es : forall st st' n,
  statistics (globals st) !! stat_key (pid (this st)) = Some (JS.of_Z n) ->
  run es st = Some st' ->
  pid (this st') = pid (this st) /\
  statistics (globals st') !! stat_key (pid (this st))
  = Some (JS.of_Z (n + Z.of_nat (writes es))).
Proof.
  induction es as [|e es IH]; intros st st' n Hn Hrun; cbn in Hrun.
  - simplify_eq. by rewrite Z.add_0_r.
  - destruct (enabled e st); [|done].
    pose proof (step_pid e st) as Hpid.
    pose proof (step_statistics e st) as Hstat.
    assert (Hn' : exists m,
      statistics (globals (step e st)) !! stat_key (pid (this (step e st)))
      = Some (JS.of_Z m) /\
      m + Z.of_nat (writes es) = n + Z.of_nat (writes (e :: es))).
    { rewrite Hpid, Hstat. destruct e; try (exists n; split; [done|unfold writes; cbn; lia]).
      exists (n + 1). split.
      - by rewrite lookup_insert_eq, Hn, increment_of_Z.
      - unfold writes. cbn. lia. }
    destruct Hn' as (m & Hm & Hsum).
    destruct (IH _ _ _ Hm Hrun) as [Hp Hs].
    rewrite Hpid in Hp, Hs. split; [done|]. by rewrite Hs, Hsum.
Qed.

(** X10: the module's [statistics] count the calls of [write] of a
    worker, those that throw included: after any events the entry of the
    worker is the number of [write] calls among them. *)
Theorem X10_statistics_count_the_writes url g st0 es st :
  from url g = (Ok tt, st0) ->
  run es st0 = Some st ->
  statistics (globals st) !! stat_key (pid (this st))
  = Some (JS.of_Z (Z.of_nat (writes es))).
Proof.
  intros E Hrun.
  assert (H0 : statistics (globals st0) !! stat_key (pid (this st0))
               = Some (JS.of_Z 0)).
  { apply from_Ok_state in E. subst st0. cbn. by rewrite lookup_insert_eq. }
  destruct (run_statistics es st0 st 0 H0 Hrun) as [Hp Hs].
  by rewrite Hp, Hs.
Qed.

Lemma stat_key_inj a b : stat_key a = stat_key b -> a = b.
Proof.
  unfold stat_key. cbn. intros E. injection E as E. by apply (inj pretty).
Qed.

(** X11: a worker made after another one gets the next pid, whether or
    not its construction throws, and making it leaves the statistics of
    the first worker as they are while its own start at 0. *)
Theorem X11_the_next_worker_gets_the_next_pid url1 url2 g st1 es st1' :
  from url1 g = (Ok tt, st1) ->
  run es st1 = Some st1' ->
  let st2 := snd (from url2 (globals st1')) in
  pid (this st2) = S (pid (this st1')) /\
  statistics (globals st2) !! stat_key (pid (this st2)) = Some (JS.of_Z 0) /\
  statistics (globals st2) !! stat_key (pid (this st1'))
  = statistics (globals st1') !! stat_key (pid (this st1')).
Proof.
  intros E Hrun. cbn zeta.
  assert (Hreach : reachable url1 g st1').
  { eapply reachable_run; [by apply reachable_from|exact Hrun]. }
  destruct (reachable_identity _ _ _ Hreach) as (Hi & Hp & _).
  unfold info in Hi. injection Hi as Hpid _ _.
  unfold from, new_SocketWorker. init_effect. cbn.
  rewrite Hp, Hpid. split_and!.
  - done.
  - by rewrite lookup_insert_eq.
  - rewrite lookup_insert_ne; [done|].
    intros Heq. apply stat_key_inj in Heq. lia.
Qed.

Lemma split_String sep c s :
  JS.split sep (String c s) =
    if Ascii.eqb c sep then EmptyString :: JS.split sep s
    else match JS.split sep s with
         | h :: t => String c h :: t
         | [] => [String c EmptyString]
         end.
Proof. reflexivity. Qed.

Lemma split_colon_free p :
  colon_free p = true -> JS.split ":" p = [p].
Proof.
  induction p as [|c p IH]; [done|]. cbn [colon_free].
  intros [Hc Hp]%andb_true_iff. apply negb_true_iff in Hc.
  rewrite split_String, Hc, (IH Hp). done.
Qed.

Lemma split_at_colon h s :
  colon_free h = true ->
  JS.split ":" (h +:+ String ":" s) = h :: JS.split ":" s.
Proof.
  induction h as [|c h IH]; [done|]. cbn [colon_free].
  intros [Hc Hh]%andb_true_iff. apply negb_true_iff in Hc.
  change (String c h +:+ String ":" s) with (String c (h +:+ String ":" s)).
  rewrite split_String, Hc, (IH Hh). done.
Qed.

(** X12: [from] reads the first two fields of the endpoint and nothing
    else: what follows a second colon is ignored, so that
    ["host:port:rest"] makes the worker that ["host:port"] makes. *)
Theorem X12_from_ignores_what_follows_a_second_colon h p rest g :
  colon_free h = true ->
  colon_free p = true ->
  from (h +:+ String ":" (p +:+ String ":" rest)) g
  = from (h +:+ String ":" p) g /\
  host (this (snd (from (h +:+ String ":" (p +:+ String ":" rest)) g))) = h /\
  port (this (snd (from (h +:+ String ":" (p +:+ String ":" rest)) g)))
  = Number (Some p).
Proof.
  intros Hh Hp. unfold from.
  rewrite !(split_at_colon h) by done.
  rewrite (split_at_colon p) by done.
  rewrite (split_colon_free p) by done. cbn [hd lookup list_lookup].
  split; [done|].
  unfold new_SocketWorker. by init_effect.
Qed.

Lemma deliver_responses frames : forall st hb rs,
  _heartBeatTimer (this st) = Some hb ->
  responses frames = Some rs ->
  let st' := snd (deliver frames st) in
  fst (deliver frames st) = Ok tt /\
  this st' = with_heartBeatTimer (Some (Nat.iter (heartbeats frames) emit hb)) (this st) /\
  calls st' = calls st ++ map (fun r => (_subscriber (this st), onData r)) rs /\
  sockets st' = sockets st /\ timers st' = timers st.
Proof.
  induction frames as [|f fs IH]; intros st hb rs Hhb Hrs; cbn in Hrs.
  - simplify_eq. cbn. rewrite app_nil_r, <- Hhb, with_heartBeatTimer_same. done.
  - cbn [deliver]. unfold bind, heartbeats. cbn [List.filter].
    unfold _onSubscribeDecodeBuff, bind, self, debug, assign, notify.
    destruct (isHeartBeat f) eqn:Hf.
    + rewrite Hhb. cbn [fst snd length Nat.iter].
      match goal with |- context [ deliver fs ?s ] =>
        destruct (IH s (emit hb) rs eq_refl Hrs) as (Hr & Ht & Hc & Hs & Htm) end.
      cbn zeta in *.
      match goal with |- context [ deliver fs ?s ] =>
        destruct (deliver fs s) as [r st2] end.
      cbn in *. subst r. rewrite Ht, Hc, Hs, Htm.
      split_and!; try done.
      rewrite <- Nat.iter_succ_r. reflexivity.
    + destruct (decodeDubboResponse f) as [json|x]; [|done].
      destruct (responses fs) as [rs'|] eqn:Hrs'; [|done]. simplify_eq.
      cbn [fst snd].
      match goal with |- context [ deliver fs ?s ] =>
        destruct (IH s hb rs' Hhb eq_refl) as (Hr & Ht & Hc & Hs & Htm) end.
      cbn zeta in *.
      match goal with |- context [ deliver fs ?s ] =>
        destruct (deliver fs s) as [r st2] end.
      cbn in *. subst r. rewrite Ht, Hc, Hs, Htm.
      split_and!; try done. by rewrite <- app_assoc.
Qed.

(** X13: the frames of one chunk reach the subscriber in order.  When
    the worker has its monitor and every frame the assembler hands over
    for a chunk is a heartbeat or decodes, [_onData] returns, the
    subscriber gets one [onData] per frame that is no heartbeat, in the
    order of the frames, the monitor notes liveness once per heartbeat
    frame, and the bytes the assembler keeps become the buffer. *)
Theorem X13_the_frames_of_a_chunk_in_order st data hb frames rest rs :
  _heartBeatTimer (this st) = Some hb ->
  receive (_decodeBuff (this st)) data = (frames, rest) ->
  responses frames = Some rs ->
  let st' := snd (_onData data st) in
  fst (_onData data st) = Ok tt /\
  calls st' = calls st ++ map (fun r => (_subscriber (this st), onData r)) rs /\
  _heartBeatTimer (this st')
  = Some (Nat.iter (heartbeats frames) emit hb) /\
  liveness_notes (Nat.iter (heartbeats frames) emit hb)
  = (liveness_notes hb + heartbeats frames)%nat /\
  _decodeBuff (this st') = rest.
Proof.
  intros Hhb Hrecv Hrs. unfold _onData, bind, self, debug, assign. cbn.
  rewrite Hrecv.
  match goal with |- context [ deliver frames ?s ] =>
    destruct (deliver_responses frames s hb rs Hhb Hrs) as (Hr & Ht & Hc & _) end.
  cbn zeta in *. rewrite Hr, Ht, Hc. cbn. split_and!; try done.
  generalize (heartbeats frames). intros n.
  induction n as [|n IH]; [cbn; lia|].
  change (Nat.iter (S n) emit hb) with (emit (Nat.iter n emit hb)).
  cbn [liveness_notes emit]. lia.
Qed.

(** X14: an endpoint without a colon has no port: [from] takes the whole
    text as the host and [Number(undefined)], which is [NaN], as the
    port, and hands both to [connect]. *)
Theorem X14_from_without_a_colon_has_the_port_NaN url g :
  colon_free url = true ->
  host (this (snd (from url g))) = url /\
  port (this (snd (from url g))) = JS.NaN /\
  fst (from url g) =
    match connect_throws JS.NaN url with
    | Some x => Throw x
    | None => Ok tt
    end.
Proof.
  intros Hu. unfold from. rewrite (split_colon_free url) by done.
  cbn [hd lookup list_lookup Number]. unfold new_SocketWorker.
  match goal with |- context [ _initSocket ?s ] => set (s0 := s) end.
  destruct (connect_throws JS.NaN url) as [x|] eqn:Hc.
  - by rewrite (_initSocket_refused s0 x Hc).
  - by rewrite (_initSocket_accepted s0 Hc).
Qed.

End WorkerProperties.

(** ** The JavaScript primitives on examples *)

Example Number_20880 : JS.StringToNumber "20880" = JS.of_Z 20880.
Proof. reflexivity. Qed.

Example Number_abc : JS.StringToNumber "abc" = JS.NaN.
Proof. reflexivity. Qed.

Example Number_empty : JS.StringToNumber "" = JS.of_Z 0.
Proof. reflexivity. Qed.

Example Number_exponent : JS.StringToNumber " 2.5e3 " = JS.of_Z 2500.
Proof. reflexivity. Qed.

Example Number_hex : JS.StringToNumber "0x1F" = JS.of_Z 31.
Proof. reflexivity. Qed.

Example Number_fraction : JS.StringToNumber "-.5" = JS.Fin (Qmake (-1) 2).
Proof. reflexivity. Qed.

Example Number_rounds_to_binary64 :
  JS.StringToNumber "20880.0000000000000001" = JS.of_Z 20880.
Proof. vm_compute. reflexivity. Qed.

Example Number_underflows : JS.StringToNumber "1e-400" = JS.of_Z 0.
Proof. vm_compute. reflexivity. Qed.

Example Number_overflows : JS.StringToNumber "-1e400" = JS.Infinity true.
Proof. vm_compute. reflexivity. Qed.

Example Number_negative_zero : JS.StringToNumber "-0" = JS.NegativeZero.
Proof. reflexivity. Qed.

Example Number_tie_to_even :
  JS.StringToNumber "9007199254740993" = JS.of_Z 9007199254740992.
Proof. vm_compute. reflexivity. Qed.

Example Number_no_break_space :
  JS.StringToNumber (String (ascii_of_nat 194) (String (ascii_of_nat 160) "80"))
  = JS.of_Z 80.
Proof. vm_compute. reflexivity. Qed.

Example Number_empty_as_zero : JS.StringToNumber "" = JS.StringToNumber "0".
Proof. reflexivity. Qed.

Example Number_undefined : Number (H := node_collaborators) None = JS.NaN.
Proof. reflexivity. Qed.

Example split_endpoint : JS.split ":" "127.0.0.1:20880" = ["127.0.0.1"; "20880"].
Proof. reflexivity. Qed.

Example split_no_colon : JS.split ":" "localhost" = ["localhost"].
Proof. reflexivity. Qed.

(** ** The claims on the example worker *)

Lemma example_worker_made :
  from (H := node_collaborators) "127.0.0.1:20880" fresh_module = (Ok tt, example_worker).
Proof. apply from_returned. vm_compute. reflexivity. Qed.

Lemma example_after_run n :
  example_runs n = true ->
  run (example_failures n) example_worker = Some (example_after n).
Proof.
  unfold example_runs, example_after.
  by destruct (run (example_failures n) example_worker).
Qed.

Lemma example_after_reachable n :
  example_runs n = true ->
  reachable "127.0.0.1:20880" fresh_module (example_after n).
Proof.
  intros Hn. eapply reachable_run.
  - apply reachable_from. exact example_worker_made.
  - by apply example_after_run.
Qed.

(** C1, counterexample: after the 20th connect failure the status of the
    example worker is RETRY, with one retry left, and its subscriber has
    received no [onClose]. *)
Lemma C1_counterexample :
  (fun st => (_status (this st), _retry (this st),
              onClose_received (subscriber 1) st, length (pending_timers st)))
    <$> run (example_failures 20) example_worker
  = Some (RETRY, 1, [], 1%nat).
Proof. vm_compute. reflexivity. Qed.

Lemma C1_witness :
  exists st,
    run (example_failures 21) example_worker = Some st /\
    _status (this st) = CLOSED /\
    onClose_received (subscriber 1) st
      = [socket_info 1 "127.0.0.1" (JS.of_Z 20880)].
Proof.
  destruct (C1_closed_after_the_21st_failure (H := node_collaborators)
              "127.0.0.1:20880" fresh_module example_worker
              (subscriber 1) "ECONNREFUSED")
    as (_ & st & Hrun & Hst & Hclose & _).
  - apply from_returned. vm_compute. reflexivity.
  - exists st. split; [exact Hrun|]. split; [exact Hst|exact Hclose].
Defined.

(** C4, counterexample: the example worker is CLOSED after its 21st
    connect failure, and after [resetRetry] its status is CLOSED, not
    PADDING, while a new socket is connecting. *)
Lemma C4_counterexample :
  _status (this (example_after 21)) = CLOSED /\
  _status (this (snd (resetRetry (example_after 21)))) = CLOSED /\
  _status (this (snd (resetRetry (example_after 21)))) <> PADDING /\
  (length (sockets (snd (resetRetry (example_after 21))))
   = S (length (sockets (example_after 21))))%nat.
Proof. vm_compute. split_and!; try reflexivity. discriminate. Qed.

Lemma C4_witness :
  _status (this (snd (resetRetry (example_after 21)))) = CLOSED /\
  _retry (this (snd (resetRetry (example_after 21)))) = RETRY_NUM.
Proof.
  destruct (C4_reset_leaves_the_status_closed (H := node_collaborators)
              (example_after 21)) as (Hst & Hr & _).
  - vm_compute. reflexivity.
  - split; [exact Hst|exact Hr].
Defined.

Lemma C5_witness :
  (length (pending_timers (example_after 1)) <= 1)%nat.
Proof.
  destruct (C5_at_most_one_pending_retry_timer (H := node_collaborators)
              "127.0.0.1:20880" fresh_module (example_after 1)) as [Hp _].
  - apply example_after_reachable. vm_compute. reflexivity.
  - exact Hp.
Defined.

Lemma C6_witness :
  0 <= _retry (this (example_after 20)) <= RETRY_NUM /\
  _retry (this (step (ev_retry_timeout 19) (example_after 20)))
  = _retry (this (example_after 20)) - 1.
Proof.
  destruct (C6_retry_count (H := node_collaborators)
              "127.0.0.1:20880" fresh_module (example_after 20)) as [Hb Hstep].
  - apply example_after_reachable. vm_compute. reflexivity.
  - split; [exact Hb|].
    destruct (Hstep (ev_retry_timeout 19)) as [Heq _]; [vm_compute; reflexivity|].
    exact Heq.
Defined.

(** C8, counterexample: with the port check of lib/net.js, the endpoint
    ["127.0.0.1:"], whose port is empty and so not numeric, makes a worker
    (for port 0), and ["127.0.0.1:70000"], whose port is numeric, does
    not. *)
Lemma C8_counterexample :
  numeric_port "127.0.0.1:" = false /\
  fst (from (H := node_collaborators) "127.0.0.1:" fresh_module) = Ok tt /\
  port (this (snd (from (H := node_collaborators) "127.0.0.1:" fresh_module)))
  = JS.of_Z 0 /\
  numeric_port "127.0.0.1:70000" = true /\
  is_Ok (fst (from (H := node_collaborators) "127.0.0.1:70000" fresh_module)) = false.
Proof. vm_compute. split_and!; reflexivity. Qed.

Lemma C9_witness :
  (length (open_sockets (example_after 20)) <= 1)%nat /\
  _socket (this (snd (_initSocket (example_after 20)))) = Some 20%nat.
Proof.
  destruct (C9_at_most_one_open_socket (H := node_collaborators)
              "127.0.0.1:20880" fresh_module (example_after 20))
    as (Hopen & _ & _ & Hsock & _).
  - apply example_after_reachable. vm_compute. reflexivity.
  - split; [exact Hopen|exact Hsock].
Defined.

Lemma C10_witness :
  (exists msg, fst (write example_context (example_after 1)) = Throw (TypeError msg)) /\
  sockets (snd (write example_context (example_after 1))) = sockets (example_after 1).
Proof.
  destruct (C10_write_before_connected_throws (H := node_collaborators)
              "127.0.0.1:20880" fresh_module example_worker (example_failures 1)
              (example_after 1) example_context) as (Hthrow & Hsock & _).
  - apply from_returned. vm_compute. reflexivity.
  - apply example_after_run. vm_compute. reflexivity.
  - vm_compute. reflexivity.
  - split; [exact Hthrow|exact Hsock].
Defined.

(** ** The further properties on the example worker *)

Lemma example_state_run es :
  example_delivers es = true ->
  run es example_worker = Some (example_state es).
Proof.
  unfold example_delivers, example_state.
  by destruct (run es example_worker).
Qed.

Lemma example_state_reachable es :
  example_delivers es = true ->
  reachable "127.0.0.1:20880" fresh_module (example_state es).
Proof.
  intros Hes. eapply reachable_run.
  - apply reachable_from. exact example_worker_made.
  - by apply example_state_run.
Qed.

Lemma X2_witness :
  _decodeBuff (this (step (ev_close true) (example_after 1))) = [] /\
  isAvaliable (this (step (ev_close true) (example_after 1))) = false.
Proof.
  destruct (X2_closure_retries_or_notifies (H := node_collaborators)
              "127.0.0.1:20880" fresh_module (example_after 1) true)
    as (Hbuf & Hav & _).
  - apply example_after_reachable. vm_compute. reflexivity.
  - split; [exact Hbuf|exact Hav].
Defined.

Lemma X6_witness :
  info (this (example_after 20)) = socket_info 1 "127.0.0.1" (JS.of_Z 20880).
Proof.
  destruct (X6_notifications_carry_the_identity (H := node_collaborators)
              "127.0.0.1:20880" fresh_module (example_after 20)) as (Hi & _).
  - apply example_after_reachable. vm_compute. reflexivity.
  - exact Hi.
Defined.

Lemma X7_witness :
  Forall (fun t => delay t = RETRY_TIME) (timers (example_after 20)).
Proof.
  apply (X7_every_retry_timer_has_the_fixed_delay (H := node_collaborators)
           "127.0.0.1:20880" fresh_module).
  apply example_after_reachable. vm_compute. reflexivity.
Defined.

Lemma X8_witness :
  fst (write example_context (example_state example_connect))
  = Ok (@Build_Context node_collaborators 1 (Some 1%nat) []).
Proof.
  destruct (X8_write_sends_the_stamped_request (H := node_collaborators)
              (example_state example_connect) example_context
              (HeartBeat_from "socket-worker:1" (Some 0%nat)) 0%nat
              (connecting_socket (JS.of_Z 20880) "127.0.0.1") [])
    as (Hr & _).
  - vm_compute. reflexivity.
  - vm_compute. reflexivity.
  - vm_compute. reflexivity.
  - vm_compute. reflexivity.
  - vm_compute. reflexivity.
  - assert (Hp : pid (this (example_state example_connect)) = 1%nat)
      by (vm_compute; reflexivity).
    rewrite Hr, Hp. reflexivity.
Defined.

Lemma X9_witness :
  _status (this (example_state example_connect_then_fail)) = CLOSED /\
  is_Ok (fst (write example_context (example_state example_connect_then_fail))) = true.
Proof.
  split; [vm_compute; reflexivity|].
  rewrite (X9_write_has_no_guard_on_the_status (H := node_collaborators)
             "127.0.0.1:20880" fresh_module example_worker
             [call_subscribe (subscriber 1)] (connect_failures "ECONNRESET" 21)
             (example_state example_connect_then_fail) example_context []).
  - reflexivity.
  - exact example_worker_made.
  - apply (example_state_run example_connect_then_fail). vm_compute. reflexivity.
  - vm_compute. reflexivity.
Defined.

Lemma X10_witness :
  statistics (globals (example_state
                         [call_write example_context; ev_connect;
                          call_write example_context]))
    !! stat_key (pid (this (example_state
                              [call_write example_context; ev_connect;
                               call_write example_context])))
  = Some (JS.of_Z 2).
Proof.
  pose proof (X10_statistics_count_the_writes (H := node_collaborators)
                "127.0.0.1:20880" fresh_module example_worker
                [call_write example_context; ev_connect; call_write example_context]
                (example_state [call_write example_context; ev_connect;
                                call_write example_context])
                example_worker_made) as Hx.
  rewrite Hx.
  - vm_compute. reflexivity.
  - apply example_state_run. vm_compute. reflexivity.
Defined.

Lemma X11_witness :
  pid (this (snd (from (H := node_collaborators) "127.0.0.1:20881"
                       (globals (example_after 1))))) = 2%nat.
Proof.
  destruct (X11_the_next_worker_gets_the_next_pid (H := node_collaborators)
              "127.0.0.1:20880" "127.0.0.1:20881" fresh_module example_worker
              (example_failures 1) (example_after 1)) as (Hp & _).
  - exact example_worker_made.
  - apply example_after_run. vm_compute. reflexivity.
  - rewrite Hp. vm_compute. reflexivity.
Defined.

Lemma X12_witness :
  port (this (snd (from (H := node_collaborators) "127.0.0.1:20880:x" fresh_module)))
  = JS.of_Z 20880.
Proof.
  destruct (X12_from_ignores_what_follows_a_second_colon (H := node_collaborators)
              "127.0.0.1" "20880" "x" fresh_module) as (_ & _ & Hp).
  - reflexivity.
  - reflexivity.
  - exact Hp.
Defined.

Lemma X13_witness :
  let st := example_state example_buffering in
  let st' := snd (_onData example_chunk st) in
  _decodeBuff (this st) = take 10 example_response_1 /\
  calls st' = calls st ++ [(subscriber 1, @onData node_collaborators example_response_1);
                           (subscriber 1, @onData node_collaborators example_response_2)] /\
  liveness_notes <$> _heartBeatTimer (this st') = Some 1%nat /\
  _decodeBuff (this st') = [Byte.xda; Byte.xbb].
Proof.
  cbn zeta.
  destruct (X13_the_frames_of_a_chunk_in_order (H := node_collaborators)
              (example_state example_buffering) example_chunk
              (HeartBeat_from "socket-worker:1" (Some 0%nat))
              [example_response_1; example_heartbeat; example_response_2]
              [Byte.xda; Byte.xbb]
              [example_response_1; example_response_2])
    as (_ & Hc & Hm & _ & Hb).
  - vm_compute. reflexivity.
  - vm_compute. reflexivity.
  - reflexivity.
  - assert (Hs : _subscriber (this (example_state example_buffering)) = subscriber 1)
      by (vm_compute; reflexivity).
    split_and!.
    + vm_compute. reflexivity.
    + rewrite Hc, Hs. reflexivity.
    + rewrite Hm. vm_compute. reflexivity.
    + exact Hb.
Defined.

Lemma X14_witness :
  port (this (snd (from (H := node_collaborators) "localhost" fresh_module))) = JS.NaN.
Proof.
  destruct (X14_from_without_a_colon_has_the_port_NaN (H := node_collaborators)
              "localhost" fresh_module) as (_ & Hp & _).
  - reflexivity.
  - exact Hp.
Defined.
